(** * The video-selection service: custom score and ranking pipeline

    A shallow embedding of [src/video-selection/main.py]: the scoring
    function [calculate_score] and the endpoint
    [search_videos_custom_score] (search, batched detail fetch, score,
    sort, truncate), followed by the properties of the ranking pipeline.

    Python floats are IEEE-754 binary64 numbers; they are modelled by
    [spec_float] with the operations of [SpecFloat] at precision 53 and
    maximal exponent 1024 (round to nearest, ties to even).  Python
    integers are unbounded and are modelled by [Z].  Python strings are
    modelled by [string] (the UTF-8 bytes of the text).

    The JSON answers of the external API are typed records whose
    optional keys are [option]s; the [print] calls of the source are
    left out; building a [VideoItem] from an entry of
    [videos_with_scores] is total; a [max_results] parameter that is not
    an integer literal is not modelled. *)

From Stdlib Require Import ZArith Lia List Bool String Ascii.
From Stdlib Require Import Permutation Sorted.
From Stdlib Require Import SpecFloat.
Import ListNotations.

Local Open Scope string_scope.
Local Open Scope list_scope.
Local Open Scope Z_scope.

(** ** Exceptions and results *)

(** The exceptions the modelled code can meet.  [HttpError] is
    [googleapiclient.errors.HttpError] with [e.resp.status];
    [HTTPException] and [RequestValidationError] are FastAPI's. *)
Inductive exn : Type :=
| ValueError
| TypeError
| KeyError
| OverflowError
| ZeroDivisionError
| HttpError (status : Z)
| HTTPException (status_code : Z)
| RequestValidationError
| OtherError.

Inductive result (A : Type) : Type :=
| Ok (a : A)
| Raise (e : exn).

Arguments Ok {A} a.
Arguments Raise {A} e.

Definition rbind {A B : Type} (r : result A) (k : A -> result B) : result B :=
  match r with
  | Ok a => k a
  | Raise e => Raise e
  end.

Declare Scope result_scope.
Delimit Scope result_scope with result.
Notation "x <- r ;; k" := (rbind r (fun x => k))
  (at level 61, r at next level, right associativity) : result_scope.

(** [try: body except (ValueError, TypeError): handler]. *)
Definition caught_Value_Type (e : exn) : bool :=
  match e with
  | ValueError | TypeError => true
  | _ => false
  end.

Definition try_except {A : Type} (body : result A) (caught : exn -> bool)
           (handler : result A) : result A :=
  match body with
  | Ok a => Ok a
  | Raise e => if caught e then handler else Raise e
  end.

(** ** Python floats (binary64) *)

Module Float.

Definition prec : Z := 53.
Definition emax : Z := 1024.

Definition float : Type := spec_float.

Definition mul (x y : float) : float := SFmul prec emax x y.
Definition add (x y : float) : float := SFadd prec emax x y.
Definition div (x y : float) : float := SFdiv prec emax x y.
Definition ltb (x y : float) : bool := SFltb x y.
Definition eqb (x y : float) : bool := SFeqb x y.

(** The exact integer [z] as an (unnormalised) float datum. *)
Definition of_Z_exact (z : Z) : float :=
  match z with
  | Z0 => S754_zero false
  | Zpos p => S754_finite false p 0
  | Zneg p => S754_finite true p 0
  end.

(** [float(z)]: the integer rounded to the nearest binary64. *)
Definition of_Z (z : Z) : float := binary_normalize prec emax z 0 false.

(** The decimal literal [n / d] (for example [0.6] is [literal 6 10]):
    the binary64 nearest to the rational. *)
Definition literal (n d : Z) : float := div (of_Z_exact n) (of_Z_exact d).

Definition is_zero (x : float) : bool :=
  match x with
  | S754_zero _ => true
  | _ => false
  end.

(** Neither an infinity nor NaN. *)
Definition is_finite (x : float) : bool :=
  match x with
  | S754_zero _ | S754_finite _ _ _ => true
  | _ => false
  end.

Definition is_nan (x : float) : bool :=
  match x with
  | S754_nan => true
  | _ => false
  end.

(** [a / b] on Python integers ([long_true_divide]): the correctly
    rounded quotient; [ZeroDivisionError] for a zero divisor and
    [OverflowError] when the rounded quotient exceeds the largest
    float. *)
Definition long_true_divide (a b : Z) : result float :=
  if b =? 0 then Raise ZeroDivisionError
  else match div (of_Z_exact a) (of_Z_exact b) with
       | S754_infinity _ => Raise OverflowError
       | q => Ok q
       end.

(** [x / y] on Python floats: [ZeroDivisionError] for a zero divisor,
    the IEEE quotient otherwise. *)
Definition truediv (x y : float) : result float :=
  if is_zero y then Raise ZeroDivisionError else Ok (div x y).

(** [bounded_by K x]: [x] is a zero or a finite float of magnitude
    below [2 ^ K] whose exponent is within the format. *)
Definition bounded_by (K : Z) (x : float) : Prop :=
  match x with
  | S754_zero _ => True
  | S754_finite _ m e => Z.pos (digits2_pos m) + e <= K /\ e <= emax - prec
  | _ => False
  end.

(** [magnitude_ge L x]: [x] is finite, not zero, of magnitude at least
    [2 ^ (L - 1)]. *)
Definition magnitude_ge (L : Z) (x : float) : Prop :=
  match x with
  | S754_finite _ m e => L <= Z.pos (digits2_pos m) + e
  | _ => False
  end.

Definition exponent_nonpos (x : float) : Prop :=
  match x with
  | S754_finite _ _ e => e <= 0
  | _ => True
  end.

End Float.

Abbreviation float := Float.float.

(** ** Scoring configuration (module-level constants of the source) *)

Definition RATIO_WEIGHT : float := Eval vm_compute in Float.literal 6 10.
Definition RECENCY_WEIGHT : float := Eval vm_compute in Float.literal 4 10.
Definition RECENCY_SCALE_FACTOR : float :=
  Eval vm_compute in Float.of_Z (10 ^ 10).
Definition INITIAL_FETCH_COUNT : Z := 50.

(** The literals [0.0] and [0.01] of [calculate_score]. *)
Definition float_0_0 : float := S754_zero false.
Definition float_0_01 : float := Eval vm_compute in Float.literal 1 100.

(** ** Strings *)

(** [s.replace(old, new)] for a one-character [old]. *)
Fixpoint str_replace (s : string) (old : ascii) (new : string) : string :=
  match s with
  | EmptyString => EmptyString
  | String c rest =>
      if Ascii.eqb c old then (new ++ str_replace rest old new)%string
      else String c (str_replace rest old new)
  end.

(** [sep.join(parts)]. *)
Definition str_join (sep : string) (parts : list string) : string :=
  String.concat sep parts.

(** Truthiness of an optional string ([None] and [""] are falsy). *)
Definition truthy_str (s : option string) : bool :=
  match s with
  | Some (String _ _) => true
  | _ => false
  end.

(** ** The Python runtime the service relies on

    [int(s)], [datetime.fromisoformat(s)] and [dt.timestamp()] belong to
    the interpreter, not to the repository: the service is stated over
    any runtime offering them.  A failing call returns [Raise e]. *)
Class PythonRuntime : Type := {
  datetime : Type;
  int_of_str : string -> result Z;
  datetime_fromisoformat : string -> result datetime;
  datetime_timestamp : datetime -> result float
}.

(** ** Custom score calculation *)

Section Scoring.

Context {py : PythonRuntime}.
Local Open Scope result_scope.

(** Truthiness of an [Optional[int]] ([None] and [0] are falsy). *)
Definition truthy_int (x : option Z) : bool :=
  match x with
  | Some z => negb (z =? 0)
  | None => false
  end.

(** [x > n]; comparing [None] with an integer raises [TypeError]. *)
Definition int_gt (x : option Z) (n : Z) : result bool :=
  match x with
  | Some z => Ok (n <? z)
  | None => Raise TypeError
  end.

(** [x == n] ([None == n] is [False]). *)
Definition int_eq (x : option Z) (n : Z) : bool :=
  match x with
  | Some z => z =? n
  | None => false
  end.

Definition is_None {A : Type} (x : option A) : bool :=
  match x with
  | None => true
  | Some _ => false
  end.

(** [a / b] on [Optional[int]] operands. *)
Definition int_truediv (a b : option Z) : result float :=
  match a, b with
  | Some x, Some y => Float.long_true_divide x y
  | _, _ => Raise TypeError
  end.

(** Short-circuit [a and b] in a condition: [b] is evaluated only when
    [a] is truthy. *)
Definition and_then (a b : result bool) : result bool :=
  x <- a ;; if x then b else Ok false.

Definition calculate_score (view_count like_count : option Z)
           (published_at_str : string) : result float :=
  (* Ratio Component *)
  let ratio_score := float_0_0 in
  c1 <- and_then (Ok (truthy_int view_count))
          (and_then (Ok (truthy_int like_count)) (int_gt view_count 0)) ;;
  ratio_score <-
    (if c1 then
       ratio <- int_truediv like_count view_count ;;
       Ok ratio
     else
       c2 <- and_then (Ok (truthy_int like_count))
               (and_then (int_gt like_count 0)
                  (Ok (is_None view_count || int_eq view_count 0))) ;;
       if c2 then Ok float_0_01 else Ok ratio_score) ;;
  (* Recency Component *)
  let recency_score := float_0_0 in
  recency_score <-
    try_except
      (published_dt <-
         datetime_fromisoformat (str_replace published_at_str "Z" "+00:00") ;;
       published_timestamp <- datetime_timestamp published_dt ;;
       Float.truediv published_timestamp RECENCY_SCALE_FACTOR)
      caught_Value_Type
      (Ok recency_score) ;;
  (* Combined Weighted Score *)
  let final_score :=
    Float.add (Float.mul RATIO_WEIGHT ratio_score)
              (Float.mul RECENCY_WEIGHT recency_score) in
  Ok final_score.

End Scoring.

(** ** Data model *)

(** JSON resources of the YouTube Data API, as the code reads them: a
    key that may be absent is an [option]. *)
Module Api.

(** [item["id"]] of a search result. *)
Record ResourceId : Type := {
  kind : option string;
  videoId : option string
}.

Record SearchResult : Type := { sr_id : option ResourceId }.

Record SearchListResponse : Type := {
  search_items : option (list SearchResult)
}.

Record Snippet : Type := {
  publishedAt : option string;
  title : option string;
  channelTitle : option string;
  description : option string
}.

Record Statistics : Type := {
  viewCount : option string;
  likeCount : option string
}.

Record Video : Type := {
  v_id : option string;
  snippet : option Snippet;
  statistics : option Statistics
}.

Record VideoListResponse : Type := {
  video_items : option (list Video)
}.

End Api.

(** The response model of the endpoint. *)
Record VideoItem : Type := {
  id : string;
  url : string;
  title : string;
  channelTitle : string;
  publishedAt : string;
  description : option string;
  viewCount : option Z;
  likeCount : option Z
}.

(** An entry of [videos_with_scores]: the keys of a [VideoItem] and
    ["customScore"]. *)
Record ScoredVideo : Type := {
  video : VideoItem;
  customScore : float
}.

(** ** Outbound calls *)

(** A request sent to the external API: [search().list(q, maxResults)]
    (with [part="snippet"], [type="video"], [order="relevance"]) and
    [videos().list(id)] (with [part="snippet,statistics"]). *)
Inductive call : Type :=
| SearchList (q : string) (maxResults : Z)
| VideosList (ids : string).

(** The client built by [googleapiclient.discovery.build]: the answer of
    [execute()] to each request. *)
Record YouTube : Type := {
  search_list_execute : string -> Z -> result Api.SearchListResponse;
  videos_list_execute : string -> result Api.VideoListResponse
}.

(** A computation that issues outbound calls: the calls issued, in
    order, and the outcome. *)
Definition M (A : Type) : Type := (list call * result A)%type.

Definition ret {A : Type} (a : A) : M A := ([], Ok a).

Definition lift {A : Type} (r : result A) : M A := ([], r).

Definition bind {A B : Type} (m : M A) (k : A -> M B) : M B :=
  match m with
  | (t, Ok a) => let '(t', r) := k a in (t ++ t', r)
  | (t, Raise e) => (t, Raise e)
  end.

Declare Scope effect_scope.
Delimit Scope effect_scope with effect.
Notation "x <- m ;; k" := (bind m (fun x => k))
  (at level 61, m at next level, right associativity) : effect_scope.

(** [for x in xs: s = body(x, s)]. *)
Fixpoint for_each {A S : Type} (xs : list A) (body : A -> S -> M S) (s : S)
  : M S :=
  match xs with
  | [] => ret s
  | x :: rest => bind (body x s) (fun s' => for_each rest body s')
  end.

Definition search_list (youtube : YouTube) (q : string) (maxResults : Z)
  : M Api.SearchListResponse :=
  ([SearchList q maxResults], search_list_execute youtube q maxResults).

Definition videos_list (youtube : YouTube) (ids : string)
  : M Api.VideoListResponse :=
  ([VideosList ids], videos_list_execute youtube ids).

(** ** Lists: [range], slices and [list.sort] *)

(** [range(start, stop, step)] for a positive [step]. *)
Definition range (start stop step : nat) : list nat :=
  map (fun k => (start + k * step)%nat)
      (seq 0 ((stop - start + step - 1) / step)%nat).

(** [l[i:j]] for [0 <= i <= j]. *)
Definition slice {A : Type} (l : list A) (i j : nat) : list A :=
  firstn (j - i) (skipn i l).

(** [l[:stop]]; a negative [stop] counts from the end. *)
Definition slice_to {A : Type} (l : list A) (stop : Z) : list A :=
  if 0 <=? stop then firstn (Z.to_nat stop) l
  else firstn (List.length l - Z.to_nat (- stop)) l.

Section Sort.

Context {A : Type} (key : A -> float).

(** Insertion after the elements that are not greater: the rightmost
    position, as the binary insertion of [list.sort] does. *)
Fixpoint insert_sorted (x : A) (sorted : list A) : list A :=
  match sorted with
  | [] => [x]
  | y :: rest =>
      if Float.ltb (key x) (key y) then x :: y :: rest
      else y :: insert_sorted x rest
  end.

(** The ascending stable sort, comparing keys with [<] only.  On keys
    that [<] orders totally (floats other than NaN) every stable sort
    computes this list. *)
Definition stable_sort (l : list A) : list A :=
  fold_left (fun sorted x => insert_sorted x sorted) l [].

(** [l.sort(key=key, reverse=reverse)]: with [reverse] the list is
    reversed, sorted ascending and reversed again. *)
Definition list_sort (reverse : bool) (l : list A) : list A :=
  if reverse then rev (stable_sort (rev l)) else stable_sort l.

End Sort.

(** ** The service *)

(** What the process reads at start-up: the API key of the environment
    and [googleapiclient.discovery.build]. *)
Record Environment : Type := {
  YOUTUBE_API_KEY : option string;
  build : string -> string -> string -> result YouTube
}.

Definition YOUTUBE_API_SERVICE_NAME : string := "youtube".
Definition YOUTUBE_API_VERSION : string := "v3".

(** The query parameters of [GET /search] ([None]: parameter absent). *)
Record Request : Type := {
  param_query : option string;
  param_max_results : option Z
}.

Inductive Response : Type :=
| Response200 (results : list VideoItem)
| ResponseError (status_code : Z).

(** [d.get(key)] on a dictionary that defaults to [{}]. *)
Definition dict_get {D V : Type} (d : option D) (key : D -> option V)
  : option V :=
  match d with
  | Some d' => key d'
  | None => None
  end.

(** [d.get(key, default)]. *)
Definition get_or {V : Type} (v : option V) (default : V) : V :=
  match v with
  | Some v' => v'
  | None => default
  end.

(** [d[key]]. *)
Definition getitem {V : Type} (v : option V) : result V :=
  match v with
  | Some v' => Ok v'
  | None => Raise KeyError
  end.

Section Service.

Context {py : PythonRuntime}.
Variable env : Environment.

Definition get_youtube_service : result YouTube :=
  match YOUTUBE_API_KEY env with
  | Some (String _ _ as key) =>
      match build env YOUTUBE_API_SERVICE_NAME YOUTUBE_API_VERSION key with
      | Ok service => Ok service
      | Raise _ => Raise (HTTPException 500)
      end
  | _ => Raise (HTTPException 500)
  end.

Local Open Scope effect_scope.

(** The loop that keeps the identifiers of the video-type results. *)
Definition collect_video_ids (search_response : Api.SearchListResponse)
  : M (list string) :=
  for_each (get_or (Api.search_items search_response) [])
    (fun item video_ids =>
       match dict_get (Api.sr_id item) Api.kind with
       | Some k =>
           if String.eqb k "youtube#video" then
             videoId <- lift (resource <- getitem (Api.sr_id item) ;;
                              getitem (Api.videoId resource))%result ;;
             ret (video_ids ++ [videoId])
           else ret video_ids
       | None => ret video_ids
       end)
    [].

(** The body of the details loop: one call for the batch that starts
    at index [i]. *)
Definition fetch_batch (youtube : YouTube) (video_ids : list string)
           (i : nat) (detailed_videos : list Api.Video)
  : M (list Api.Video) :=
  let batch_ids := slice video_ids i (i + 50) in
  video_details_response <- videos_list youtube (str_join "," batch_ids) ;;
  ret (detailed_videos
         ++ get_or (Api.video_items video_details_response) []).

(** The batched details loop. *)
Definition fetch_details (youtube : YouTube) (video_ids : list string)
  : M (list Api.Video) :=
  for_each (range 0 (List.length video_ids) 50)
           (fetch_batch youtube video_ids) [].

(** [int(s) if s else None]. *)
Definition int_if_truthy (s : option string) : result (option Z) :=
  match s with
  | Some (String _ _ as digits) =>
      (n <- int_of_str digits ;; Ok (Some n))%result
  | _ => Ok None
  end.

(** The body of the scoring loop for one details item. *)
Definition score_video (video_data : Api.Video)
           (videos_with_scores : list ScoredVideo)
  : result (list ScoredVideo) :=
  (video_id <- getitem (Api.v_id video_data) ;;
   let snippet := Api.snippet video_data in
   let stats := Api.statistics video_data in
   let view_count_str := dict_get stats Api.viewCount in
   let like_count_str := dict_get stats Api.likeCount in
   let published_at := dict_get snippet Api.publishedAt in
   view_count <- int_if_truthy view_count_str ;;
   like_count <- int_if_truthy like_count_str ;;
   match published_at with
   | Some (String _ _ as published_at) =>
       score <- calculate_score view_count like_count published_at ;;
       Ok (videos_with_scores ++
             [ {| video :=
                    {| id := video_id;
                       url := "https://www.youtube.com/watch?v=" ++ video_id;
                       title := get_or (dict_get snippet Api.title) "N/A";
                       channelTitle :=
                         get_or (dict_get snippet Api.channelTitle) "N/A";
                       publishedAt := published_at;
                       description := dict_get snippet Api.description;
                       viewCount := view_count;
                       likeCount := like_count |};
                  customScore := score |} ])
   | _ => Ok videos_with_scores
   end)%result.

Definition score_videos (detailed_videos : list Api.Video)
  : M (list ScoredVideo) :=
  for_each detailed_videos
    (fun video_data videos_with_scores =>
       lift (score_video video_data videos_with_scores))
    [].

(** Steps 4 and 5 of the endpoint: sort by score, descending, and keep
    the first [max_results] ([top_videos] in the source). *)
Definition rank_videos (videos_with_scores : list ScoredVideo)
           (max_results : Z) : list ScoredVideo :=
  let videos_with_scores := list_sort customScore true videos_with_scores in
  slice_to videos_with_scores max_results.

(** The two [except] clauses of the endpoint. *)
Definition except_clauses {A : Type} (body : M A) : M A :=
  match body with
  | (t, Ok a) => (t, Ok a)
  | (t, Raise (HttpError status)) => (t, Raise (HTTPException status))
  | (t, Raise _) => (t, Raise (HTTPException 500))
  end.

Definition search_videos_custom_score (query : string) (max_results : Z)
  : M (list VideoItem) :=
  youtube <- lift get_youtube_service ;;
  except_clauses
    (search_response <- search_list youtube query INITIAL_FETCH_COUNT ;;
     video_ids <- collect_video_ids search_response ;;
     match video_ids with
     | [] => ret []
     | _ :: _ =>
         detailed_videos <- fetch_details youtube video_ids ;;
         videos_with_scores <- score_videos detailed_videos ;;
         let top_videos := rank_videos videos_with_scores max_results in
         let results := map video top_videos in
         ret results
     end).

(** Parameter validation declared by the signature of the endpoint:
    [query] is required, [max_results] defaults to 10 and must lie in
    [1 .. INITIAL_FETCH_COUNT]. *)
Definition validate (req : Request) : result (string * Z) :=
  match param_query req with
  | None => Raise RequestValidationError
  | Some query =>
      let max_results := get_or (param_max_results req) 10 in
      if (1 <=? max_results) && (max_results <=? INITIAL_FETCH_COUNT)
      then Ok (query, max_results)
      else Raise RequestValidationError
  end.

(** [GET /search]: validation, the endpoint, and the framework's
    mapping of exceptions to responses. *)
Definition get_search (req : Request) : list call * Response :=
  match validate req with
  | Ok (query, max_results) =>
      match search_videos_custom_score query max_results with
      | (t, Ok results) => (t, Response200 results)
      | (t, Raise (HTTPException status_code)) =>
          (t, ResponseError status_code)
      | (t, Raise _) => (t, ResponseError 500)
      end
  | Raise _ => ([], ResponseError 422)
  end.

End Service.

(** ** A reference runtime

    An executable instance of [PythonRuntime], used to run the service
    on concrete inputs.  [int] reads a plain decimal literal (an
    optional sign and ASCII digits).  [fromisoformat] reads the grammar
    documented for [datetime.fromisoformat] in Python 3.7 to 3.10:
    [YYYY-MM-DD[*HH[:MM[:SS[.fff[fff]]]][+HH:MM[:SS[.ffffff]]]]], and the
    constructed datetime is validated as the [datetime] constructor
    does.  [timestamp] of an aware datetime is
    [(dt - EPOCH).total_seconds()]; for a naive datetime the local time
    zone of the process is taken to be UTC. *)
Module CPython.

Definition digit (c : ascii) : option Z :=
  let n := Z.of_N (N_of_ascii c) in
  if (48 <=? n) && (n <=? 57) then Some (n - 48) else None.

Fixpoint digits_acc (cs : list ascii) (acc : Z) : option Z :=
  match cs with
  | [] => Some acc
  | c :: rest =>
      match digit c with
      | Some d => digits_acc rest (10 * acc + d)
      | None => None
      end
  end.

Definition parse_digits (cs : list ascii) : option Z :=
  match cs with
  | [] => None
  | _ :: _ => digits_acc cs 0
  end.

Definition of_option {A : Type} (x : option A) : result A :=
  match x with
  | Some a => Ok a
  | None => Raise ValueError
  end.

Definition int (s : string) : result Z :=
  match list_ascii_of_string s with
  | "-"%char :: cs => of_option (option_map Z.opp (parse_digits cs))
  | "+"%char :: cs => of_option (parse_digits cs)
  | cs => of_option (parse_digits cs)
  end.

Record fields : Type := {
  year : Z; month : Z; day : Z;
  hour : Z; minute : Z; second : Z; microsecond : Z;
  (** [utcoffset()] in microseconds; [None] for a naive datetime. *)
  utcoffset : option Z
}.

Definition is_leap (y : Z) : bool :=
  (y mod 4 =? 0) && (negb (y mod 100 =? 0) || (y mod 400 =? 0)).

Definition days_in_month (y m : Z) : Z :=
  if m =? 2 then (if is_leap y then 29 else 28)
  else if (m =? 4) || (m =? 6) || (m =? 9) || (m =? 11) then 30
  else 31.

Definition in_range (lo x hi : Z) : bool := (lo <=? x) && (x <=? hi).

Definition valid_fields (f : fields) : bool :=
  in_range 1 (year f) 9999 && in_range 1 (month f) 12
  && in_range 1 (day f) (days_in_month (year f) (month f))
  && in_range 0 (hour f) 23 && in_range 0 (minute f) 59
  && in_range 0 (second f) 59 && in_range 0 (microsecond f) 999999
  && match utcoffset f with
     | Some off => (- 86400000000 <? off) && (off <? 86400000000)
     | None => true
     end.

(** A datetime object always satisfies the constructor's checks. *)
Definition datetime : Type := { f : fields | valid_fields f = true }.

Definition new_datetime (f : fields) : result datetime :=
  match valid_fields f as b return valid_fields f = b -> result datetime with
  | true => fun H => Ok (exist _ f H)
  | false => fun _ => Raise ValueError
  end eq_refl.

(** [HH[:MM[:SS[.fff[fff]]]]]: hour, minute, second, microsecond. *)
Definition parse_hh_mm_ss_ff (tstr : list ascii) : option (Z * Z * Z * Z) :=
  match tstr with
  | [h1; h2] =>
      option_map (fun h => (h, 0, 0, 0)) (parse_digits [h1; h2])
  | [h1; h2; ":"%char; m1; m2] =>
      match parse_digits [h1; h2], parse_digits [m1; m2] with
      | Some h, Some m => Some (h, m, 0, 0)
      | _, _ => None
      end
  | h1 :: h2 :: ":"%char :: m1 :: m2 :: ":"%char :: s1 :: s2 :: rest =>
      match parse_digits [h1; h2], parse_digits [m1; m2],
            parse_digits [s1; s2] with
      | Some h, Some m, Some s =>
          match rest with
          | [] => Some (h, m, s, 0)
          | "."%char :: frac =>
              match List.length frac, parse_digits frac with
              | 3%nat, Some us => Some (h, m, s, us * 1000)
              | 6%nat, Some us => Some (h, m, s, us)
              | _, _ => None
              end
          | _ => None
          end
      | _, _, _ => None
      end
  | _ => None
  end.

(** The position of the first ['+'] or ['-'], splitting the clock
    time from the offset. *)
Fixpoint split_offset (tstr : list ascii)
  : list ascii * option (ascii * list ascii) :=
  match tstr with
  | [] => ([], None)
  | c :: rest =>
      if Ascii.eqb c "+" || Ascii.eqb c "-" then ([], Some (c, rest))
      else let '(t, off) := split_offset rest in (c :: t, off)
  end.

Definition parse_isoformat_time (tstr : list ascii)
  : option (Z * Z * Z * Z * option Z) :=
  let '(timestr, off) := split_offset tstr in
  match parse_hh_mm_ss_ff timestr with
  | Some (h, m, s, us) =>
      match off with
      | None => Some (h, m, s, us, None)
      | Some (sign, tzstr) =>
          let len := List.length tzstr in
          if Nat.eqb len 5 || Nat.eqb len 8 || Nat.eqb len 15 then
            match parse_hh_mm_ss_ff tzstr with
            | Some (th, tm, ts, tus) =>
                let td := ((th * 3600 + tm * 60 + ts) * 1000000 + tus) in
                Some (h, m, s, us,
                      Some (if Ascii.eqb sign "-" then - td else td))
            | None => None
            end
          else None
      end
  | None => None
  end.

Definition parse_isoformat_date (dstr : list ascii) : option (Z * Z * Z) :=
  match dstr with
  | [y1; y2; y3; y4; "-"%char; m1; m2; "-"%char; d1; d2] =>
      match parse_digits [y1; y2; y3; y4], parse_digits [m1; m2],
            parse_digits [d1; d2] with
      | Some y, Some m, Some d => Some (y, m, d)
      | _, _, _ => None
      end
  | _ => None
  end.

Definition fromisoformat (date_string : string) : result datetime :=
  let cs := list_ascii_of_string date_string in
  match parse_isoformat_date (firstn 10 cs) with
  | Some (y, mo, d) =>
      match skipn 10 cs with
      | [] => new_datetime (Build_fields y mo d 0 0 0 0 None)
      | _ :: tstr =>
          match parse_isoformat_time tstr with
          | Some (h, m, s, us, off) =>
              new_datetime (Build_fields y mo d h m s us off)
          | None => Raise ValueError
          end
      end
  | None => Raise ValueError
  end.

Definition days_before_year (y : Z) : Z :=
  let y' := y - 1 in y' * 365 + y' / 4 - y' / 100 + y' / 400.

Definition days_before_month (y m : Z) : Z :=
  let common :=
    nth (Z.to_nat m) [0; 0; 31; 59; 90; 120; 151; 181; 212; 243; 273; 304; 334] 0 in
  if (2 <? m) && is_leap y then common + 1 else common.

Definition ymd2ord (y m d : Z) : Z :=
  days_before_year y + days_before_month y m + d.

(** Whole seconds from 1970-01-01T00:00:00 to the clock reading. *)
Definition seconds_since_epoch (f : fields) : Z :=
  (ymd2ord (year f) (month f) (day f) - 719163) * 86400
  + hour f * 3600 + minute f * 60 + second f.

Definition float_1e6 : float := Eval vm_compute in Float.of_Z (10 ^ 6).

Definition timestamp (dt : datetime) : result float :=
  let f := proj1_sig dt in
  match utcoffset f with
  | Some off =>
      Float.long_true_divide
        (seconds_since_epoch f * 1000000 + microsecond f - off) 1000000
  | None =>
      Ok (Float.add (Float.of_Z (seconds_since_epoch f))
                    (Float.div (Float.of_Z (microsecond f)) float_1e6))
  end.

#[export] Instance runtime : PythonRuntime := {
  datetime := datetime;
  int_of_str := int;
  datetime_fromisoformat := fromisoformat;
  datetime_timestamp := timestamp
}.

End CPython.

(** ** Specification-side definitions *)

(** What the runtime's datetime operations guarantee: they fail only
    with [ValueError] or [TypeError], and a timestamp is a finite float
    of magnitude below [2 ^ 64] (datetimes range over the years 1 to
    9999). *)
Class PythonRuntimeLaws (py : PythonRuntime) : Prop := {
  fromisoformat_raises :
    forall s e, datetime_fromisoformat s = Raise e ->
                caught_Value_Type e = true;
  timestamp_range :
    forall dt,
      match datetime_timestamp dt with
      | Ok t => Float.bounded_by 64 t
      | Raise e => caught_Value_Type e = true
      end
}.

(** The ratio component in the words of the specification: the quotient
    when both counts are present and [viewCount > 0]; [0.01] when
    [likeCount] is present and positive while [viewCount] is absent or
    zero; [0] otherwise. *)
Definition ratio_component (viewCount likeCount : option Z) : result float :=
  match viewCount, likeCount with
  | Some v, Some l =>
      if 0 <? v then Float.long_true_divide l v
      else if (0 <? l) && (v =? 0) then Ok float_0_01
      else Ok float_0_0
  | None, Some l => if 0 <? l then Ok float_0_01 else Ok float_0_0
  | _, None => Ok float_0_0
  end.

(** No later element has a smaller key than an earlier one. *)
Definition ascending {A : Type} (key : A -> float) : list A -> Prop :=
  StronglySorted (fun x y => Float.ltb (key y) (key x) = false).

(** The elements whose key equals [k] (as floats compare). *)
Definition same_key {A : Type} (key : A -> float) (k : float) (x : A) : bool :=
  Float.eqb (key x) k.

(** The consecutive batches of at most 50 identifiers. *)
Definition batches (video_ids : list string) : list (list string) :=
  map (fun i => slice video_ids i (i + 50))
      (range 0 (List.length video_ids) 50).

(** The details call carrying a batch. *)
Definition details_call (batch : list string) : call :=
  VideosList (str_join "," batch).

(** The details item carries a (non-empty) publication date. *)
Definition has_published_at (video_data : Api.Video) : bool :=
  truthy_str (dict_get (Api.snippet video_data) Api.publishedAt).

(** The identifiers of the items of a details answer. *)
Definition detail_ids (detailed_videos : list Api.Video) : list (option string) :=
  map Api.v_id detailed_videos.


(** The answer of the external API to a call. *)
Definition answer (youtube : YouTube) (c : call)
  : result Api.SearchListResponse + result Api.VideoListResponse :=
  match c with
  | SearchList q n => inl (search_list_execute youtube q n)
  | VideosList ids => inr (videos_list_execute youtube ids)
  end.

(** Two clients give the same answers to the calls of a trace. *)
Definition agree_on (t : list call) (y1 y2 : YouTube) : Prop :=
  forall c, In c t -> answer y1 c = answer y2 c.

Section Runs.

Context {py : PythonRuntime}.

(** A run of the endpoint's body that reaches the sort: the candidate
    pool, the details items and the scored survivors
    ([videos_with_scores]). *)
Inductive pipeline_run (youtube : YouTube) (query : string)
  : list string -> list Api.Video -> list ScoredVideo -> Prop :=
| run_empty_pool search_response :
    search_list_execute youtube query INITIAL_FETCH_COUNT
      = Ok search_response ->
    snd (collect_video_ids search_response) = Ok [] ->
    pipeline_run youtube query [] [] []
| run_scored search_response video_ids detailed_videos videos_with_scores :
    search_list_execute youtube query INITIAL_FETCH_COUNT
      = Ok search_response ->
    snd (collect_video_ids search_response) = Ok video_ids ->
    video_ids <> [] ->
    snd (fetch_details youtube video_ids) = Ok detailed_videos ->
    snd (score_videos detailed_videos) = Ok videos_with_scores ->
    pipeline_run youtube query video_ids detailed_videos videos_with_scores.

(** A successful request, with the intermediate values of its run. *)
Definition ranked (env : Environment) (req : Request)
           (video_ids : list string) (detailed_videos : list Api.Video)
           (videos_with_scores : list ScoredVideo)
           (results : list VideoItem) : Prop :=
  exists youtube query max_results,
    validate req = Ok (query, max_results) /\
    1 <= max_results <= INITIAL_FETCH_COUNT /\
    get_youtube_service env = Ok youtube /\
    pipeline_run youtube query video_ids detailed_videos videos_with_scores /\
    results = map video (rank_videos videos_with_scores max_results).

End Runs.

(** ** An example world

    The scenario of the specification: the search for ["cats"] returns
    A, B, C, D and E; the details call answers for A (1000 views, 100
    likes, published 2024-01-01), B (100 views, 50 likes, published
    2025-01-01), D (no publication date) and E (the statistics and date
    of A); C is missing from the details. *)
Module Example.

Definition search_result (video_id : string) : Api.SearchResult :=
  {| Api.sr_id := Some {| Api.kind := Some "youtube#video";
                          Api.videoId := Some video_id |} |}.

Definition details (video_id : string) (views likes : string)
           (published : option string) : Api.Video :=
  {| Api.v_id := Some video_id;
     Api.snippet := Some {| Api.publishedAt := published;
                            Api.title := Some ("Video " ++ video_id)%string;
                            Api.channelTitle := Some "Channel";
                            Api.description := None |};
     Api.statistics := Some {| Api.viewCount := Some views;
                               Api.likeCount := Some likes |} |}.

Definition video_A := details "A" "1000" "100" (Some "2024-01-01T00:00:00Z").
Definition video_B := details "B" "100" "50" (Some "2025-01-01T00:00:00Z").
Definition video_D := details "D" "10" "1" None.
Definition video_E := details "E" "1000" "100" (Some "2024-01-01T00:00:00Z").

Definition youtube : YouTube :=
  {| search_list_execute := fun q _ =>
       if String.eqb q "cats" then
         Ok {| Api.search_items :=
                 Some (map search_result ["A"; "B"; "C"; "D"; "E"]) |}
       else Ok {| Api.search_items := Some [] |};
     videos_list_execute := fun ids =>
       if String.eqb ids "A,B,C,D,E" then
         Ok {| Api.video_items :=
                 Some [video_A; video_B; video_D; video_E] |}
       else Ok {| Api.video_items := None |} |}.

Definition env : Environment :=
  {| YOUTUBE_API_KEY := Some "key";
     build := fun _ _ _ => Ok youtube |}.

Definition request : Request :=
  {| param_query := Some "cats"; param_max_results := None |}.

Definition outcome : list call * Response :=
  Eval vm_compute in @get_search CPython.runtime env request.

Definition video_ids : list string := ["A"; "B"; "C"; "D"; "E"].

Definition detailed_videos : list Api.Video :=
  [video_A; video_B; video_D; video_E].

Definition item (video_id : string) (views likes : Z) (published : string)
  : VideoItem :=
  {| id := video_id;
     url := "https://www.youtube.com/watch?v=" ++ video_id;
     title := "Video " ++ video_id;
     channelTitle := "Channel";
     publishedAt := published;
     description := None;
     viewCount := Some views;
     likeCount := Some likes |}.

(** The entries of [videos_with_scores]; A and E tie. *)
Definition entry_A : ScoredVideo :=
  {| video := item "A" 1000 100 "2024-01-01T00:00:00Z";
     customScore := S754_finite false 4617547471356810 (-55) |}.
Definition entry_B : ScoredVideo :=
  {| video := item "B" 100 50 "2025-01-01T00:00:00Z";
     customScore := S754_finite false 6655015718571130 (-54) |}.
Definition entry_E : ScoredVideo :=
  {| video := item "E" 1000 100 "2024-01-01T00:00:00Z";
     customScore := S754_finite false 4617547471356810 (-55) |}.

Definition videos_with_scores : list ScoredVideo :=
  [entry_A; entry_B; entry_E].

Definition results : list VideoItem :=
  [video entry_B; video entry_A; video entry_E].

(** A second client: the same answers to the calls of the run, failures
    elsewhere. *)
Definition youtube2 : YouTube :=
  {| search_list_execute := fun q n =>
       if String.eqb q "cats" then search_list_execute youtube q n
       else Raise (HttpError 503);
     videos_list_execute := fun ids =>
       if String.eqb ids "A,B,C,D,E" then videos_list_execute youtube ids
       else Raise (HttpError 404) |}.

Definition env2 : Environment :=
  {| YOUTUBE_API_KEY := Some "another key";
     build := fun _ _ _ => Ok youtube2 |}.

(** A request with an empty query. *)
Definition empty_query : Request :=
  {| param_query := Some ""; param_max_results := None |}.

End Example.

(** ** Further specification-side definitions *)

(** No later element has a greater key than an earlier one. *)
Definition descending {A : Type} (key : A -> float) : list A -> Prop :=
  StronglySorted (fun x y => Float.ltb (key x) (key y) = false).

(** The search result is of kind ["youtube#video"]
    ([item.get("id", {}).get("kind") == "youtube#video"]). *)
Definition is_video_result (item : Api.SearchResult) : bool :=
  match dict_get (Api.sr_id item) Api.kind with
  | Some k => String.eqb k "youtube#video"
  | None => false
  end.

(** [item["id"]["videoId"]], when the keys are there. *)
Definition result_videoId (item : Api.SearchResult) : option string :=
  dict_get (Api.sr_id item) Api.videoId.

Section Faults.

Context {py : PythonRuntime}.

(** A statistics count of the item is a non-empty string that [int]
    rejects. *)
Definition count_rejected (video_data : Api.Video) : Prop :=
  exists s e,
    (dict_get (Api.statistics video_data) Api.viewCount = Some s \/
     dict_get (Api.statistics video_data) Api.likeCount = Some s) /\
    s <> EmptyString /\
    int_of_str s = Raise e.

(** The run of the endpoint's body up to the end of the details loop. *)
Definition details_fetched (youtube : YouTube) (query : string)
           (video_ids : list string) (detailed_videos : list Api.Video)
  : Prop :=
  exists search_response,
    search_list_execute youtube query INITIAL_FETCH_COUNT
      = Ok search_response /\
    snd (collect_video_ids search_response) = Ok video_ids /\
    video_ids <> [] /\
    snd (fetch_details youtube video_ids) = Ok detailed_videos.


End Faults.

(** ** Faulty worlds

    Environments and clients for the failure paths of the endpoint. *)
Module Faults.

(** No API key in the environment. *)
Definition env_no_key : Environment :=
  {| YOUTUBE_API_KEY := None;
     build := fun _ _ _ => Ok Example.youtube |}.



(** A details item with a view count that is no number, and no date. *)
Definition video_bad_count : Api.Video :=
  Example.details "A" "abc" "1" None.

Definition youtube_bad_count : YouTube :=
  {| search_list_execute := fun _ _ =>
       Ok {| Api.search_items := Some [Example.search_result "A"] |};
     videos_list_execute := fun _ =>
       Ok {| Api.video_items := Some [video_bad_count] |} |}.

Definition env_bad_count : Environment :=
  {| YOUTUBE_API_KEY := Some "key";
     build := fun _ _ _ => Ok youtube_bad_count |}.

(** A query for which the example search finds nothing. *)
Definition request_dogs : Request :=
  {| param_query := Some "dogs"; param_max_results := Some 5 |}.


End Faults.

(** * Properties *)

(** ** Facts about binary64 arithmetic *)

Module FloatFacts.
Import Float.

Lemma digits2_pos_log2 (p : positive) :
Z.pos (digits2_pos p) = Z.log2 (Z.pos p) + 1.
Proof.
induction p as [p IH | p IH |]; simpl digits2_pos.
- rewrite Pos2Z.inj_succ, IH.
  change (Z.log2 (Z.pos p~1)) with (Z.pos (Pos.size p)).
  destruct p; simpl; lia.
- rewrite Pos2Z.inj_succ, IH.
  change (Z.log2 (Z.pos p~0)) with (Z.pos (Pos.size p)).
  destruct p; simpl; lia.
- reflexivity.
Qed.

Lemma Zdigits2_nonneg (m : Z) : 0 <= Zdigits2 m.
Proof. destruct m; simpl; lia. Qed.

Lemma Zdigits2_pos_bounds (p : positive) :
2 ^ (Zdigits2 (Z.pos p) - 1) <= Z.pos p < 2 ^ Zdigits2 (Z.pos p).
Proof.
simpl Zdigits2. rewrite digits2_pos_log2.
replace (Z.log2 (Z.pos p) + 1 - 1) with (Z.log2 (Z.pos p)) by lia.
replace (Z.log2 (Z.pos p) + 1) with (Z.succ (Z.log2 (Z.pos p))) by lia.
apply Z.log2_spec. lia.
Qed.

Lemma Zdigits2_le_iff (m k : Z) :
0 <= m -> 0 <= k -> (Zdigits2 m <= k <-> m < 2 ^ k).
Proof.
intros Hm Hk. destruct m as [| p | p]; [| | lia].
- simpl. split; intros; [apply Z.pow_pos_nonneg|]; lia.
- pose proof (Zdigits2_pos_bounds p) as [Hlo Hhi]. split; intros H.
  + apply Z.lt_le_trans with (1 := Hhi). apply Z.pow_le_mono_r; lia.
  + destruct (Z_le_gt_dec (Zdigits2 (Z.pos p)) k) as [|Hgt]; [assumption|].
    exfalso. assert (2 ^ k <= 2 ^ (Zdigits2 (Z.pos p) - 1))
      by (apply Z.pow_le_mono_r; lia). lia.
Qed.

Lemma Zdigits2_succ (m : Z) : 0 <= m -> Zdigits2 (m + 1) <= Zdigits2 m + 1.
Proof.
intros Hm. pose proof (Zdigits2_nonneg m) as Hd.
apply Zdigits2_le_iff; [lia | lia |].
assert (m < 2 ^ Zdigits2 m) by (apply Zdigits2_le_iff; lia).
rewrite Z.pow_add_r by lia. change (2 ^ 1) with 2. lia.
Qed.

Lemma Zdigits2_shift (m : Z) (p : positive) :
0 <= m ->
Zdigits2 (m / 2 ^ Z.pos p) + Z.pos p <= Z.max (Zdigits2 m) (Z.pos p).
Proof.
intros Hm. pose proof (Zdigits2_nonneg m) as Hd.
assert (Hpow : 0 < 2 ^ Z.pos p) by (apply Z.pow_pos_nonneg; lia).
assert (Hq : 0 <= m / 2 ^ Z.pos p) by (apply Z.div_pos; lia).
assert (Hlt : m < 2 ^ Zdigits2 m) by (apply Zdigits2_le_iff; lia).
destruct (Z_le_gt_dec (Zdigits2 m) (Z.pos p)) as [Hle | Hgt].
- assert (m / 2 ^ Z.pos p = 0) as ->.
  { apply Z.div_small. split; [assumption|].
    apply Z.lt_le_trans with (1 := Hlt). apply Z.pow_le_mono_r; lia. }
  simpl. lia.
- assert (Zdigits2 (m / 2 ^ Z.pos p) <= Zdigits2 m - Z.pos p); [|lia].
  apply Zdigits2_le_iff; [assumption | lia |].
  apply Z.div_lt_upper_bound; [assumption|].
  rewrite <- Z.pow_add_r by lia.
  replace (Z.pos p + (Zdigits2 m - Z.pos p)) with (Zdigits2 m) by lia.
  assumption.
Qed.

Lemma shr_1_m (mrs : shr_record) :
0 <= shr_m mrs -> shr_m (shr_1 mrs) = shr_m mrs / 2.
Proof.
destruct mrs as [m r s]. simpl. intros Hm.
destruct m as [| [q | q |] | q]; simpl; try reflexivity; try lia.
- apply Z.div_unique with (r := 1); lia.
- apply Z.div_unique with (r := 0); lia.
Qed.

Lemma iter_shr_1_m (p : positive) (mrs : shr_record) :
0 <= shr_m mrs ->
shr_m (iter_pos shr_1 p mrs) = shr_m mrs / 2 ^ Z.pos p.
Proof.
revert mrs. induction p as [p IH | p IH |]; intros mrs Hm; simpl iter_pos.
- assert (H1 : 0 <= shr_m (shr_1 mrs))
    by (rewrite shr_1_m by assumption; apply Z.div_pos; lia).
  assert (Hp : 0 < 2 ^ Z.pos p) by (apply Z.pow_pos_nonneg; lia).
  rewrite IH; rewrite IH; try assumption.
  + rewrite shr_1_m by assumption.
    rewrite !Z.div_div by lia. f_equal.
    replace (Z.pos p~1) with (1 + Z.pos p + Z.pos p) by lia.
    rewrite !Z.pow_add_r by lia. change (2 ^ 1) with 2. lia.
  + apply Z.div_pos; lia.
- assert (Hp : 0 < 2 ^ Z.pos p) by (apply Z.pow_pos_nonneg; lia).
  rewrite IH; rewrite IH; try assumption.
  + rewrite !Z.div_div by lia. f_equal.
    replace (Z.pos p~0) with (Z.pos p + Z.pos p) by lia.
    rewrite !Z.pow_add_r by lia. lia.
  + apply Z.div_pos; lia.
- rewrite shr_1_m by assumption. reflexivity.
Qed.

Lemma shr_record_of_loc_m (m : Z) (l : location) :
shr_m (shr_record_of_loc m l) = m.
Proof. destruct l as [| []]; reflexivity. Qed.

Lemma round_nearest_even_range (m : Z) (l : location) :
m <= round_nearest_even m l <= m + 1.
Proof.
destruct l as [| []]; simpl; try lia. destruct (Z.even m); lia.
Qed.

(** One normalising right shift: the mantissa stays non-negative, the
  magnitude does not grow past the format's grid and the exponent
  becomes at most the canonical one. *)
Lemma shr_fexp_spec (m e : Z) (l : location) :
0 <= m ->
let '(mrs, e') := shr_fexp prec emax m e l in
0 <= shr_m mrs /\
Zdigits2 (shr_m mrs) + e' <=
  Z.max (Zdigits2 m + e) (fexp prec emax (Zdigits2 m + e)) /\
e' <= Z.max e (fexp prec emax (Zdigits2 m + e)).
Proof.
intros Hm. unfold shr_fexp, shr.
destruct (fexp prec emax (Zdigits2 m + e) - e) as [| p | p] eqn:Hn;
  rewrite ?shr_record_of_loc_m; try (repeat split; lia).
rewrite iter_shr_1_m by (rewrite shr_record_of_loc_m; assumption).
rewrite shr_record_of_loc_m.
pose proof (Zdigits2_shift m p Hm).
assert (0 < 2 ^ Z.pos p) by (apply Z.pow_pos_nonneg; lia).
repeat split; [apply Z.div_pos; lia | lia | lia].
Qed.


Ltac unfold_format := unfold fexp, SpecFloat.emin, emax, prec in *.

Lemma binary_round_aux_bounded (s : bool) (m e : Z) (l : location) (K : Z) :
0 <= m -> e <= emax - prec -> Zdigits2 m + e <= K ->
-1074 <= K <= emax - 1 ->
bounded_by (K + 1) (binary_round_aux prec emax s m e l).
Proof.
intros Hm He Hd HK. unfold binary_round_aux.
pose proof (shr_fexp_spec m e l Hm) as H1.
destruct (shr_fexp prec emax m e l) as [mrs1 e1].
destruct H1 as (Hm1 & Hd1 & He1).
pose proof (round_nearest_even_range (shr_m mrs1) (loc_of_shr_record mrs1))
  as Hr.
set (m2 := round_nearest_even (shr_m mrs1) (loc_of_shr_record mrs1)) in *.
assert (Hm2 : 0 <= m2) by lia.
assert (Hd2 : Zdigits2 m2 <= Zdigits2 (shr_m mrs1) + 1).
{ assert (Hc : m2 = shr_m mrs1 \/ m2 = shr_m mrs1 + 1) by lia.
  destruct Hc as [-> | ->]; [lia | apply Zdigits2_succ; assumption]. }
pose proof (shr_fexp_spec m2 e1 loc_Exact Hm2) as H2.
destruct (shr_fexp prec emax m2 e1 loc_Exact) as [mrs2 e2].
destruct H2 as (Hm3 & Hd3 & He3).
pose proof (Zdigits2_nonneg m) as Hn0.
pose proof (Zdigits2_nonneg m2) as Hn2.
destruct (shr_m mrs2) as [| p | p] eqn:E; [exact I | | lia].
destruct (Z.leb_spec e2 (emax - prec)) as [Hle | Hgt];
  unfold bounded_by; unfold_format; simpl Zdigits2 in *; lia.
Qed.


Lemma bounded_by_mono (K K' : Z) (x : float) :
K <= K' -> bounded_by K x -> bounded_by K' x.
Proof. destruct x; simpl; intros; try assumption. lia. Qed.

Lemma bounded_by_finite (K : Z) (x : float) :
bounded_by K x -> is_finite x = true.
Proof. destruct x; simpl; intros H; try reflexivity; destruct H. Qed.

Lemma digits_mul (p q : positive) :
Z.pos (digits2_pos (p * q)) <= Z.pos (digits2_pos p) + Z.pos (digits2_pos q).
Proof.
change (Zdigits2 (Z.pos (p * q)) <= Zdigits2 (Z.pos p) + Zdigits2 (Z.pos q)).
pose proof (Zdigits2_pos_bounds p) as [_ Hp].
pose proof (Zdigits2_pos_bounds q) as [_ Hq].
pose proof (Zdigits2_nonneg (Z.pos p)). pose proof (Zdigits2_nonneg (Z.pos q)).
apply Zdigits2_le_iff; [lia | lia |].
rewrite Z.pow_add_r by lia. rewrite Pos2Z.inj_mul. nia.
Qed.

(** Multiplication by a constant of non-positive exponent. *)
Lemma mul_bounded (c y : float) (Kc Ky : Z) :
bounded_by Kc c -> exponent_nonpos c -> bounded_by Ky y ->
-1074 <= Kc + Ky <= emax - 1 ->
bounded_by (Kc + Ky + 1) (mul c y).
Proof.
destruct c as [sc | sc | | sc mc ec], y as [sy | sy | | sy my ey];
  cbn [bounded_by exponent_nonpos mul SFmul]; try tauto.
intros [Hc Hec] Hnp [Hy Hey] HK.
apply binary_round_aux_bounded; try assumption.
- lia.
- lia.
- pose proof (digits_mul mc my). cbn [Zdigits2]. lia.
Qed.


Lemma div_eucl_fst (a b : Z) : fst (Z.div_eucl a b) = a / b.
Proof. reflexivity. Qed.

Lemma SFdiv_core_binary_spec (mx my : positive) (ex ey : Z) :
let '(q, e', _) := SFdiv_core_binary prec emax (Z.pos mx) ex (Z.pos my) ey in
let D := Z.pos (digits2_pos mx) + ex - (Z.pos (digits2_pos my) + ey) in
0 <= q /\
Zdigits2 q + e' <= Z.max (D + 1) (fexp prec emax D) /\
e' <= fexp prec emax D.
Proof.
unfold SFdiv_core_binary. simpl Zdigits2.
set (d1 := Z.pos (digits2_pos mx)). set (d2 := Z.pos (digits2_pos my)).
set (D := d1 + ex - (d2 + ey)).
set (e' := Z.min (fexp prec emax D) (ex - ey)).
set (s := ex - ey - e').
assert (Hs : 0 <= s) by (unfold s, e'; lia).
set (m' := match s with
           | 0 => Z.pos mx
           | Z.pos _ => Z.shiftl (Z.pos mx) s
           | Z.neg _ => 0
           end).
assert (Hm' : m' = Z.pos mx * 2 ^ s).
{ unfold m'. destruct s as [| p | p] eqn:Es; [simpl; lia | | lia].
  apply Z.shiftl_mul_pow2. lia. }
pose proof (div_eucl_fst m' (Z.pos my)) as Hq.
destruct (Z.div_eucl m' (Z.pos my)) as [q r]. simpl in Hq. subst q.
pose proof (Zdigits2_pos_bounds mx) as [_ Hx]. simpl Zdigits2 in Hx.
pose proof (Zdigits2_pos_bounds my) as [Hy _]. simpl Zdigits2 in Hy.
fold d1 in Hx. fold d2 in Hy.
assert (Hd1 : 0 < d1) by (unfold d1; lia).
assert (Hd2 : 0 < d2) by (unfold d2; lia).
assert (H2s : 0 < 2 ^ s) by (apply Z.pow_pos_nonneg; lia).
assert (Hm'0 : 0 <= m') by (rewrite Hm'; lia).
assert (Hq0 : 0 <= m' / Z.pos my) by (apply Z.div_pos; lia).
split; [assumption|]. split; [|unfold e'; lia].
set (k := Z.max 0 (d1 + s - d2 + 1)).
assert (Hk : Zdigits2 (m' / Z.pos my) <= k).
{ apply Zdigits2_le_iff; [assumption | unfold k; lia |].
  apply Z.div_lt_upper_bound; [lia|].
  assert (Hup : m' < 2 ^ (d1 + s)).
  { rewrite Hm', Z.pow_add_r by lia. nia. }
  assert (Hlow : 2 ^ (d1 + s) <= 2 ^ (d2 - 1) * 2 ^ k).
  { rewrite <- Z.pow_add_r by (unfold k; lia).
    apply Z.pow_le_mono_r; unfold k; lia. }
  assert (0 < 2 ^ k) by (apply Z.pow_pos_nonneg; unfold k; lia).
  nia. }
clearbody m'. subst k s e'. lia.
Qed.

Lemma div_bounded (x y : float) (Kx Ly : Z) :
bounded_by Kx x -> magnitude_ge Ly y ->
-1074 <= Kx - Ly + 1 <= emax - 1 ->
bounded_by (Kx - Ly + 2) (div x y).
Proof.
destruct x as [sx | sx | | sx mx ex], y as [sy | sy | | sy my ey];
  cbn [bounded_by magnitude_ge div SFdiv]; try tauto.
intros [Hx Hex] Hy HK.
pose proof (SFdiv_core_binary_spec mx my ex ey) as H.
destruct (SFdiv_core_binary prec emax (Z.pos mx) ex (Z.pos my) ey)
  as [[q e'] l].
destruct H as (Hq & Hd & He).
replace (Kx - Ly + 2) with (Kx - Ly + 1 + 1) by lia.
unfold_format.
apply binary_round_aux_bounded; unfold emax, prec; try lia.
Qed.


Lemma iter_xO_pow (m d : positive) :
Z.pos (Pos.iter xO m d) = Z.pos m * 2 ^ Z.pos d.
Proof.
induction d as [| d IH] using Pos.peano_ind.
- simpl. lia.
- rewrite Pos.iter_succ, Pos2Z.inj_succ, Z.pow_succ_r by lia.
  change (Z.pos (Pos.iter xO m d)~0) with (2 * Z.pos (Pos.iter xO m d)).
  rewrite IH. lia.
Qed.

Lemma shl_align_spec (m : positive) (e e' : Z) :
let '(m1, e1) := shl_align m e e' in
e1 = Z.min e e' /\ Z.pos m1 = Z.pos m * 2 ^ (e - e1).
Proof.
unfold shl_align. destruct (e' - e) as [| d | d] eqn:E.
- split; [lia|]. rewrite Z.sub_diag. simpl. lia.
- split; [lia|]. rewrite Z.sub_diag. simpl. lia.
- split; [lia|]. rewrite iter_xO_pow. f_equal. f_equal. lia.
Qed.

Lemma digits_shift_left (m m1 : positive) (n : Z) :
0 <= n -> Z.pos m1 = Z.pos m * 2 ^ n ->
Z.pos (digits2_pos m1) <= Z.pos (digits2_pos m) + n.
Proof.
intros Hn E.
change (Zdigits2 (Z.pos m1) <= Zdigits2 (Z.pos m) + n).
pose proof (Zdigits2_pos_bounds m) as [_ Hm].
pose proof (Zdigits2_nonneg (Z.pos m)).
apply Zdigits2_le_iff; [lia | lia |].
assert (0 < 2 ^ n) by (apply Z.pow_pos_nonneg; lia).
rewrite E, Z.pow_add_r by lia. nia.
Qed.

Lemma binary_round_bounded (s : bool) (m : positive) (e K : Z) :
Z.pos (digits2_pos m) + e <= K -> -1074 <= K <= emax - 1 ->
bounded_by (K + 1) (binary_round prec emax s m e).
Proof.
intros Hd HK. unfold binary_round.
pose proof (shl_align_spec m e (fexp prec emax (Z.pos (digits2_pos m) + e)))
  as H.
destruct (shl_align m e (fexp prec emax (Z.pos (digits2_pos m) + e)))
  as [m1 e1].
destruct H as [He1 Hm1].
assert (Hn : 0 <= e - e1) by lia.
pose proof (digits_shift_left m m1 (e - e1) Hn Hm1) as Hd1.
apply binary_round_aux_bounded; cbn [Zdigits2]; unfold_format; lia.
Qed.

Lemma add_bounded (x y : float) (K : Z) :
bounded_by K x -> bounded_by K y -> -1074 <= K + 1 <= emax - 1 ->
bounded_by (K + 2) (add x y).
Proof.
destruct x as [sx | sx | | sx mx ex], y as [sy | sy | | sy my ey];
  cbn [bounded_by add SFadd]; try tauto.
- intros _ _ _. destruct sx, sy; exact I.
- intros _ [Hy Hey] HK. split; lia.
- intros [Hx Hex] _ HK. split; lia.
- intros [Hx Hex] [Hy Hey] HK.
  set (ez := Z.min ex ey).
  pose proof (shl_align_spec mx ex ez) as Ax.
  pose proof (shl_align_spec my ey ez) as Ay.
  destruct (shl_align mx ex ez) as [mx1 ex1], (shl_align my ey ez) as [my1 ey1].
  destruct Ax as [Eex Emx], Ay as [Eey Emy]. cbn [fst].
  assert (Hnx : 0 <= ex - ex1) by lia. assert (Hny : 0 <= ey - ey1) by lia.
  pose proof (digits_shift_left mx mx1 _ Hnx Emx) as Dx.
  pose proof (digits_shift_left my my1 _ Hny Emy) as Dy.
  assert (Hex1 : ex1 = ez) by (unfold ez in *; lia).
  assert (Hey1 : ey1 = ez) by (unfold ez in *; lia).
  assert (Hez : 0 <= K - ez) by (unfold ez; lia).
  assert (Bx : Z.pos mx1 < 2 ^ (K - ez)).
  { apply (Zdigits2_le_iff (Z.pos mx1)); cbn [Zdigits2]; lia. }
  assert (By : Z.pos my1 < 2 ^ (K - ez)).
  { apply (Zdigits2_le_iff (Z.pos my1)); cbn [Zdigits2]; lia. }
  set (z := cond_Zopp sx (Z.pos mx1) + cond_Zopp sy (Z.pos my1)).
  assert (Bz : Z.abs z < 2 ^ (K + 1 - ez)).
  { replace (K + 1 - ez) with (1 + (K - ez)) by lia.
    rewrite Z.pow_add_r by lia. change (2 ^ 1) with 2.
    unfold z, cond_Zopp. destruct sx, sy; lia. }
  replace (K + 2) with (K + 1 + 1) by lia.
  unfold binary_normalize.
  destruct z as [| p | p]; [exact I | |];
    (apply binary_round_bounded; [|lia]);
    (assert (Hp : Zdigits2 (Z.pos p) <= K + 1 - ez)
       by (apply Zdigits2_le_iff; lia));
    cbn [Zdigits2] in Hp; lia.
Qed.

(** [float(z)] for an integer of at most [K] bits. *)
Lemma of_Z_exact_bounded (z K : Z) :
Z.abs z < 2 ^ K -> 0 <= K -> bounded_by K (of_Z_exact z).
Proof.
intros Hz HK. destruct z as [| p | p]; cbn [of_Z_exact bounded_by];
  [exact I | |];
  (assert (Hp : Zdigits2 (Z.pos p) <= K) by (apply Zdigits2_le_iff; lia));
  cbn [Zdigits2] in Hp; unfold emax, prec; lia.
Qed.

Lemma of_Z_exact_magnitude (z : Z) : z <> 0 -> magnitude_ge 1 (of_Z_exact z).
Proof.
destruct z as [| p | p]; cbn [of_Z_exact magnitude_ge]; intros H; lia.
Qed.

Lemma of_Z_bounded (z K : Z) :
  Z.abs z < 2 ^ K -> 0 <= K <= emax - 1 ->
  bounded_by (K + 1) (of_Z z).
Proof.
  intros Hz HK. unfold of_Z, binary_normalize.
  destruct z as [| p | p]; [exact I | |];
    (apply binary_round_bounded; [|unfold emax in *; lia]);
    (assert (Hp : Zdigits2 (Z.pos p) <= K)
       by (apply Zdigits2_le_iff; lia));
    cbn [Zdigits2] in Hp; lia.
Qed.

Lemma long_true_divide_bounded (a b K : Z) :
Z.abs a < 2 ^ K -> 0 <= K <= emax - 1 -> b <> 0 ->
exists q, long_true_divide a b = Ok q /\ bounded_by (K + 1) q.
Proof.
intros Ha HK Hb. unfold long_true_divide.
destruct (Z.eqb_spec b 0) as [|_]; [contradiction|].
pose proof (div_bounded (of_Z_exact a) (of_Z_exact b) K 1
              (of_Z_exact_bounded a K Ha (proj1 HK))
              (of_Z_exact_magnitude b Hb)) as H.
replace (K - 1 + 2) with (K + 1) in H by lia.
assert (HK' : -1074 <= K - 1 + 1 <= emax - 1) by (unfold emax in *; lia).
specialize (H HK').
destruct (div (of_Z_exact a) (of_Z_exact b)) as [s | s | | s m e] eqn:E;
  cbn [bounded_by] in H; try contradiction; eexists; split;
  try reflexivity; exact H.
Qed.


End FloatFacts.

(** ** The order of floats *)
Module FloatOrder.
Import Float.

Ltac compare_cases :=
repeat match goal with
       | |- context [Pos.compare_cont Eq ?a ?b] =>
           change (Pos.compare_cont Eq a b) with (Pos.compare a b)
       | H : context [Pos.compare_cont Eq ?a ?b] |- _ =>
           change (Pos.compare_cont Eq a b) with (Pos.compare a b) in H
       end;
repeat match goal with
       | |- context [Z.compare ?a ?b] => destruct (Z.compare_spec a b)
       | H : context [Z.compare ?a ?b] |- _ => destruct (Z.compare_spec a b)
       | |- context [Pos.compare ?a ?b] => destruct (Pos.compare_spec a b)
       | H : context [Pos.compare ?a ?b] |- _ => destruct (Pos.compare_spec a b)
       end;
cbn [CompOpp] in *; try discriminate; try reflexivity; try lia.

Ltac float_cases x :=
let s := fresh "s" in let m := fresh "m" in let e := fresh "e" in
destruct x as [s | s | | s m e]; try destruct s.

Lemma ltb_irrefl (x : float) : ltb x x = false.
Proof.
unfold ltb, SFltb. float_cases x; cbn [SFcompare]; compare_cases.
Qed.

Lemma ltb_trans (x y z : float) :
ltb x y = true -> ltb y z = true -> ltb x z = true.
Proof.
unfold ltb, SFltb.
float_cases x; float_cases y; cbn [SFcompare]; try discriminate;
  float_cases z; cbn [SFcompare]; try discriminate; try reflexivity;
  intros; compare_cases.
Qed.

Lemma eqb_ltb_compat (a b k y : float) :
eqb a k = true -> eqb b k = true -> ltb a y = true -> ltb b y = true.
Proof.
unfold ltb, eqb, SFltb, SFeqb.
float_cases a; float_cases k; cbn [SFcompare]; try discriminate;
  float_cases b; cbn [SFcompare]; try discriminate;
  float_cases y; cbn [SFcompare]; try discriminate; try reflexivity;
  intros; compare_cases.
Qed.

Lemma eqb_refl (x : float) : is_nan x = false -> eqb x x = true.
Proof.
unfold eqb, SFeqb. float_cases x; cbn [SFcompare is_nan]; try discriminate;
  intros; compare_cases.
Qed.
End FloatOrder.

(** ** The score *)

Section ScoringFacts.

Context {py : PythonRuntime}.

(** The conditions of [calculate_score] select the ratio component of
    the specification. *)
Lemma calculate_score_ratio (view_count like_count : option Z) (s : string) :
  calculate_score view_count like_count s =
  (ratio <- ratio_component view_count like_count ;;
   recency <-
     try_except
       (published_dt <- datetime_fromisoformat (str_replace s "Z" "+00:00") ;;
        published_timestamp <- datetime_timestamp published_dt ;;
        Float.truediv published_timestamp RECENCY_SCALE_FACTOR)
       caught_Value_Type (Ok float_0_0) ;;
   Ok (Float.add (Float.mul RATIO_WEIGHT ratio)
                 (Float.mul RECENCY_WEIGHT recency)))%result.
Proof.
  unfold calculate_score, ratio_component.
  destruct view_count as [v |], like_count as [l |];
    cbn [truthy_int int_gt int_eq is_None int_truediv and_then rbind];
    repeat match goal with
           | |- context [?a =? ?b] => destruct (Z.eqb_spec a b); subst
           | |- context [?a <? ?b] => destruct (Z.ltb_spec a b)
           end;
    cbn [negb rbind andb orb]; try reflexivity; try lia;
    try (destruct (Float.long_true_divide l v); reflexivity).
  destruct v as [| p | p]; try lia. reflexivity.
Qed.

Lemma truediv_scale (t : float) :
  Float.truediv t RECENCY_SCALE_FACTOR = Ok (Float.div t RECENCY_SCALE_FACTOR).
Proof. reflexivity. Qed.






Lemma ratio_component_bounded (v l : option Z) :
  match l with Some lc => Z.abs lc < 2 ^ 1000 | None => True end ->
  exists r, ratio_component v l = Ok r /\ Float.bounded_by 1001 r.
Proof.
  intros Hl.
  assert (H01 : Float.bounded_by 1001 float_0_01)
    by (cbn; split; discriminate).
  assert (H00 : Float.bounded_by 1001 float_0_0) by exact I.
  unfold ratio_component.
  destruct v as [v |], l as [l |];
    repeat match goal with
           | |- context [if ?b then _ else _] => destruct b eqn:?
           end;
    try (eexists; split; [reflexivity | assumption]).
  apply (FloatFacts.long_true_divide_bounded l v 1000); [assumption | | ].
  - unfold Float.emax. lia.
  - apply Z.ltb_lt in Heqb. lia.
Qed.

Lemma recency_bounded `{!PythonRuntimeLaws py} (s : string) :
  exists r,
    try_except
      (published_dt <- datetime_fromisoformat (str_replace s "Z" "+00:00") ;;
       published_timestamp <- datetime_timestamp published_dt ;;
       Float.truediv published_timestamp RECENCY_SCALE_FACTOR)%result
      caught_Value_Type (Ok float_0_0) = Ok r /\
    Float.bounded_by 32 r.
Proof.
  destruct (datetime_fromisoformat (str_replace s "Z" "+00:00"))
    as [dt | e] eqn:Hparse; cbn [rbind try_except].
  - pose proof (timestamp_range dt) as Hts.
    destruct (datetime_timestamp dt) as [t | e]; cbn [rbind try_except].
    + rewrite truediv_scale. eexists. split; [reflexivity|].
      apply (FloatFacts.div_bounded t RECENCY_SCALE_FACTOR 64 34);
        [assumption | cbn; discriminate | unfold Float.emax; lia].
    + rewrite Hts. exists float_0_0. split; [reflexivity | exact I].
  - rewrite (fromisoformat_raises _ _ Hparse).
    exists float_0_0. split; [reflexivity | exact I].
Qed.

(** C3 (amended).  With a like count of magnitude below [2 ^ 1000] (or
    absent), any view count and any [publishedAt] string, parseable or
    not, [calculate_score] returns a finite float: no exception, no
    NaN, no infinity. *)
Theorem calculate_score_finite `{!PythonRuntimeLaws py}
        (viewCount likeCount : option Z) (publishedAt : string) :
  match likeCount with Some lc => Z.abs lc < 2 ^ 1000 | None => True end ->
  exists score,
    calculate_score viewCount likeCount publishedAt = Ok score /\
    Float.is_finite score = true.
Proof.
  intros Hl.
  destruct (ratio_component_bounded viewCount _ Hl) as (ratio & Hr & Br).
  destruct (recency_bounded publishedAt) as (recency & Hc & Bc).
  rewrite calculate_score_ratio, Hr. cbn [rbind]. rewrite Hc. cbn [rbind].
  eexists. split; [reflexivity|].
  apply (FloatFacts.bounded_by_finite (1002 + 2)).
  apply FloatFacts.add_bounded.
  - apply (FloatFacts.mul_bounded RATIO_WEIGHT ratio 0 1001);
      [cbn; split; discriminate | cbn; discriminate | assumption
      | unfold Float.emax; lia].
  - apply FloatFacts.bounded_by_mono with (K := -1 + 32 + 1); [lia|].
    apply (FloatFacts.mul_bounded RECENCY_WEIGHT recency (-1) 32);
      [cbn; split; discriminate | cbn; discriminate | assumption
      | unfold Float.emax; lia].
  - unfold Float.emax. lia.
Qed.

End ScoringFacts.

(** ** The reference runtime satisfies the laws *)

Module CPythonFacts.
Import CPython.

Lemma new_datetime_raises (f : fields) (e : exn) :
  new_datetime f = Raise e -> e = ValueError.
Proof.
  unfold new_datetime.
  generalize (@eq_refl bool (valid_fields f)).
  generalize (valid_fields f) at 2 3.
  intros [] H; [discriminate | intros [= <-]; reflexivity].
Qed.

Lemma fromisoformat_raises_ValueError (s : string) (e : exn) :
  fromisoformat s = Raise e -> e = ValueError.
Proof.
  unfold fromisoformat.
  destruct (parse_isoformat_date _) as [[[y mo] d] |];
    [|intros [= <-]; reflexivity].
  destruct (skipn 10 _) as [| c tstr]; [apply new_datetime_raises|].
  destruct (parse_isoformat_time tstr) as [[[[[h m] sec] us] off] |];
    [apply new_datetime_raises | intros [= <-]; reflexivity].
Qed.

Lemma days_before_month_range (y m : Z) :
  1 <= m <= 12 -> 0 <= days_before_month y m <= 335.
Proof.
  intros Hm. unfold days_before_month.
  assert (Hc : m = 1 \/ m = 2 \/ m = 3 \/ m = 4 \/ m = 5 \/ m = 6 \/ m = 7
               \/ m = 8 \/ m = 9 \/ m = 10 \/ m = 11 \/ m = 12) by lia.
  repeat (destruct Hc as [-> | Hc]); try subst m;
    destruct (is_leap y); cbv; split; discriminate.
Qed.

Lemma days_in_month_range (y m : Z) : days_in_month y m <= 31.
Proof.
  unfold days_in_month.
  repeat match goal with
         | |- context [if ?b then _ else _] => destruct b
         end; lia.
Qed.

Lemma valid_fields_ranges (f : fields) :
  valid_fields f = true ->
  1 <= year f <= 9999 /\ 1 <= month f <= 12 /\ 1 <= day f <= 31 /\
  0 <= hour f <= 23 /\ 0 <= minute f <= 59 /\ 0 <= second f <= 59 /\
  0 <= microsecond f <= 999999 /\
  match utcoffset f with
  | Some off => - 86400000000 < off < 86400000000
  | None => True
  end.
Proof.
  unfold valid_fields, in_range. intros H.
  repeat match type of H with
         | (_ && _)%bool = true => apply andb_prop in H; destruct H as [H ?]
         end.
  pose proof (days_in_month_range (year f) (month f)).
  repeat match goal with
         | H : (_ && _)%bool = true |- _ =>
             apply andb_prop in H; destruct H
         | H : (_ <=? _) = true |- _ => apply Z.leb_le in H
         end.
  repeat split; try lia.
  destruct (utcoffset f); [|exact I].
  repeat match goal with
         | H : (_ && _)%bool = true |- _ =>
             apply andb_prop in H; destruct H
         | H : (_ <? _) = true |- _ => apply Z.ltb_lt in H
         end. lia.
Qed.

Lemma seconds_since_epoch_range (f : fields) :
  valid_fields f = true ->
  - 62135596800 <= seconds_since_epoch f <= 253402387199.
Proof.
  intros H. apply valid_fields_ranges in H.
  destruct H as (Hy & Hm & Hd & Hh & Hmi & Hs & _).
  pose proof (days_before_month_range (year f) (month f) Hm).
  unfold seconds_since_epoch, ymd2ord, days_before_year.
  cbv zeta. Z.to_euclidean_division_equations. lia.
Qed.

Lemma timestamp_bounded (dt : datetime) :
  exists t, timestamp dt = Ok t /\ Float.bounded_by 64 t.
Proof.
  destruct dt as [f Hv]. unfold timestamp. cbn [proj1_sig].
  pose proof (seconds_since_epoch_range f Hv) as Hsec.
  pose proof (valid_fields_ranges f Hv) as (_ & _ & _ & _ & _ & _ & Hus & Hoff).
  destruct (utcoffset f) as [off |].
  - destruct (FloatFacts.long_true_divide_bounded
                (seconds_since_epoch f * 1000000 + microsecond f - off)
                1000000 58) as (q & Hq & Bq);
      [change (2 ^ 58) with 288230376151711744; lia
      | unfold Float.emax; lia | lia |].
    exists q. split; [assumption|].
    apply FloatFacts.bounded_by_mono with (2 := Bq). lia.
  - eexists. split; [reflexivity|].
    apply FloatFacts.bounded_by_mono with (K := 39 + 2); [lia|].
    apply FloatFacts.add_bounded.
    + apply (FloatFacts.of_Z_bounded _ 38);
        [change (2 ^ 38) with 274877906944; lia | unfold Float.emax; lia].
    + apply FloatFacts.bounded_by_mono with (K := 21 - 20 + 2); [lia|].
      apply (FloatFacts.div_bounded _ float_1e6 21 20).
      * apply (FloatFacts.of_Z_bounded _ 20);
          [change (2 ^ 20) with 1048576; lia | unfold Float.emax; lia].
      * cbn. discriminate.
      * unfold Float.emax. lia.
    + unfold Float.emax. lia.
Qed.

Lemma runtime_laws : PythonRuntimeLaws runtime.
Proof.
  split.
  - intros s e H. cbn in H.
    rewrite (fromisoformat_raises_ValueError s e H). reflexivity.
  - intros dt. cbn.
    destruct (timestamp_bounded dt) as (t & -> & Ht). exact Ht.
Qed.

End CPythonFacts.

(** ** Sorting *)

Section SortFacts.

Context {A : Type} (key : A -> float).

Local Abbreviation ascending := (ascending key).

Lemma insert_sorted_In (x y : A) (l : list A) :
  In y (insert_sorted key x l) -> y = x \/ In y l.
Proof.
  induction l as [| z l IH]; cbn [insert_sorted].
  - intros [<- | []]. left. reflexivity.
  - destruct (Float.ltb (key x) (key z)).
    + intros [<- | H]; [left; reflexivity | right; exact H].
    + intros [<- | H]; [right; left; reflexivity|].
      destruct (IH H) as [-> | H']; [left; reflexivity | right; right; exact H'].
Qed.

Lemma ltb_false_of_lt (x y : float) :
  Float.ltb x y = true -> Float.ltb y x = false.
Proof.
  intros H. destruct (Float.ltb y x) eqn:E; [|reflexivity].
  pose proof (FloatOrder.ltb_trans _ _ _ H E) as Hxx.
  rewrite FloatOrder.ltb_irrefl in Hxx. discriminate.
Qed.

Lemma insert_sorted_ascending (x : A) (l : list A) :
  ascending l -> ascending (insert_sorted key x l).
Proof.
  unfold ascending. induction 1 as [| z l Hl IH Hz]; cbn [insert_sorted].
  - repeat constructor.
  - destruct (Float.ltb (key x) (key z)) eqn:E.
    + constructor; [constructor; assumption|].
      constructor; [apply ltb_false_of_lt; exact E|].
      rewrite Forall_forall in Hz |- *. intros w Hw.
      specialize (Hz w Hw).
      destruct (Float.ltb (key w) (key x)) eqn:Ew; [|reflexivity].
      rewrite (FloatOrder.ltb_trans _ _ _ Ew E) in Hz. discriminate.
    + constructor; [exact IH|].
      rewrite Forall_forall in Hz |- *. intros w Hw.
      destruct (insert_sorted_In _ _ _ Hw) as [-> | Hw'];
        [exact E | exact (Hz w Hw')].
Qed.

Lemma insert_sorted_perm (x : A) (l : list A) :
  Permutation (x :: l) (insert_sorted key x l).
Proof.
  induction l as [| z l IH]; cbn [insert_sorted]; [reflexivity|].
  destruct (Float.ltb (key x) (key z)); [reflexivity|].
  rewrite perm_swap. constructor. exact IH.
Qed.

Lemma stable_sort_perm (l acc : list A) :
  Permutation (acc ++ l) (fold_left (fun s x => insert_sorted key x s) l acc).
Proof.
  revert acc. induction l as [| x l IH]; intros acc; cbn [fold_left].
  - rewrite app_nil_r. reflexivity.
  - rewrite <- IH, <- insert_sorted_perm, <- Permutation_middle.
    reflexivity.
Qed.

Lemma list_sort_perm (reverse : bool) (l : list A) :
  Permutation l (list_sort key reverse l).
Proof.
  unfold list_sort, stable_sort. destruct reverse.
  - rewrite <- Permutation_rev, <- stable_sort_perm. cbn [app].
    apply Permutation_rev.
  - rewrite <- stable_sort_perm. reflexivity.
Qed.

Variable k : float.

Local Abbreviation same := (same_key key k).

Lemma insert_sorted_filter (x : A) (l : list A) :
  ascending l ->
  filter same (insert_sorted key x l) = filter same l ++ filter same [x].
Proof.
  unfold ascending. induction 1 as [| z l Hl IH Hz]; cbn [insert_sorted].
  - cbn. destruct (same x); reflexivity.
  - destruct (Float.ltb (key x) (key z)) eqn:E.
    + cbn [filter]. destruct (same x) eqn:Sx; [|rewrite app_nil_r; reflexivity].
      assert (Hnone : forall w, In w (z :: l) -> same w = false).
      { intros w Hw. destruct (same w) eqn:Sw; [|reflexivity].
        pose proof (FloatOrder.eqb_ltb_compat _ _ _ _ Sx Sw E) as Hwz.
        destruct Hw as [<- | Hw].
        - rewrite FloatOrder.ltb_irrefl in Hwz. discriminate.
        - rewrite Forall_forall in Hz. rewrite (Hz w Hw) in Hwz.
          discriminate. }
      assert (Hnil : filter same (z :: l) = []).
      { clear -Hnone. induction (z :: l) as [| w l' IHl]; [reflexivity|].
        cbn [filter]. rewrite (Hnone w (or_introl eq_refl)).
        apply IHl. intros v Hv. apply Hnone. right. exact Hv. }
      cbn [filter] in Hnil. rewrite Hnil. reflexivity.
    + cbn [filter]. rewrite IH. destruct (same z); reflexivity.
Qed.

Lemma stable_sort_acc (l acc : list A) :
  ascending acc ->
  let sorted := fold_left (fun s x => insert_sorted key x s) l acc in
  ascending sorted /\
  filter same sorted = filter same acc ++ filter same l.
Proof.
  revert acc. induction l as [| x l IH]; intros acc Hacc; cbn [fold_left].
  - rewrite !app_nil_r. split; [assumption | reflexivity].
  - destruct (IH (insert_sorted key x acc)
                 (insert_sorted_ascending x acc Hacc)) as (H1 & H2).
    split; [exact H1|].
    rewrite H2, insert_sorted_filter by assumption.
    change (x :: l) with ([x] ++ l).
    rewrite filter_app, <- app_assoc. reflexivity.
Qed.

Lemma filter_rev' (l : list A) : filter same (rev l) = rev (filter same l).
Proof.
  induction l as [| x l IH]; [reflexivity|].
  cbn [rev filter]. rewrite filter_app, IH. cbn [filter].
  destruct (same x); [reflexivity | rewrite app_nil_r; reflexivity].
Qed.

(** [list.sort] keeps, for every key, the elements of that key in
    their original order, also with [reverse=True]. *)
Lemma list_sort_filter (reverse : bool) (l : list A) :
  filter same (list_sort key reverse l) = filter same l.
Proof.
  unfold list_sort, stable_sort. destruct reverse.
  - destruct (stable_sort_acc (rev l) [] (SSorted_nil _)) as (_ & H).
    rewrite filter_rev', H. cbn [filter app].
    rewrite filter_rev', rev_involutive. reflexivity.
  - destruct (stable_sort_acc l [] (SSorted_nil _)) as (_ & H).
    exact H.
Qed.

Lemma slice_to_filter (l : list A) (stop : Z) :
  exists rest, filter same l = filter same (slice_to l stop) ++ rest.
Proof.
  unfold slice_to.
  destruct (0 <=? stop);
    match goal with
    | |- context [firstn ?n l] =>
        exists (filter same (skipn n l));
        rewrite <- filter_app, firstn_skipn; reflexivity
    end.
Qed.

Lemma filter_split (l u w : list A) (x : A) :
  filter same l = u ++ x :: w ->
  exists l1 l2, l = l1 ++ x :: l2 /\ filter same l1 = u /\ filter same l2 = w.
Proof.
  revert u. induction l as [| y l IH]; intros u H; cbn [filter] in H.
  - destruct u; discriminate.
  - destruct (same y) eqn:Sy.
    + destruct u as [| u0 u].
      * injection H as -> Hw. exists [], l. repeat split.
        exact Hw.
      * injection H as -> H. destruct (IH u H) as (l1 & l2 & -> & <- & <-).
        exists (u0 :: l1), l2. cbn [filter app]. rewrite Sy. repeat split.
    + destruct (IH u H) as (l1 & l2 & -> & <- & <-).
      exists (y :: l1), l2. cbn [filter app]. rewrite Sy. repeat split.
Qed.

End SortFacts.

Lemma eqb_true_not_nan (x y : float) :
  Float.eqb x y = true -> Float.is_nan y = false.
Proof.
  destruct x as [[] | [] | | [] ? ?], y as [[] | [] | | [] ? ?];
    try reflexivity; discriminate.
Qed.

(** C4.  Two entries of the ranked output with equal scores stand in the
    same order in [videos_with_scores] before the sort: if [a] precedes
    [b] in the output then [a] precedes [b] in the input. *)
Theorem ranking_is_stable
        (videos_with_scores : list ScoredVideo) (max_results : Z)
        (a b : ScoredVideo) (l1 l2 l3 : list ScoredVideo) :
  rank_videos videos_with_scores max_results = l1 ++ a :: l2 ++ b :: l3 ->
  Float.eqb (customScore a) (customScore b) = true ->
  exists m1 m2 m3, videos_with_scores = m1 ++ a :: m2 ++ b :: m3.
Proof.
  intros Htop Hab. unfold rank_videos in Htop.
  set (k := customScore b).
  assert (Sa : same_key customScore k a = true) by exact Hab.
  assert (Sb : same_key customScore k b = true)
    by (apply FloatOrder.eqb_refl, (eqb_true_not_nan _ _ Hab)).
  destruct (slice_to_filter customScore k
              (list_sort customScore true videos_with_scores) max_results)
    as (rest & Hrest).
  rewrite list_sort_filter, Htop in Hrest.
  rewrite filter_app in Hrest. cbn [filter] in Hrest.
  rewrite Sa in Hrest.
  rewrite filter_app in Hrest. cbn [filter] in Hrest.
  rewrite Sb in Hrest.
  rewrite <- !app_assoc in Hrest. cbn [app] in Hrest.
  rewrite <- !app_assoc in Hrest. cbn [app] in Hrest.
  destruct (filter_split customScore k _ _ _ _ Hrest) as (m1 & r & -> & _ & Hr).
  destruct (filter_split customScore k _ _ _ _ Hr) as (m2 & m3 & -> & _ & _).
  exists m1, m2, m3. reflexivity.
Qed.

(** ** The effect monad *)

Lemma bind_fst {A B : Type} (m : M A) (k : A -> M B) :
  fst (bind m k) =
  fst m ++ match snd m with Ok a => fst (k a) | Raise _ => [] end.
Proof.
  destruct m as [t [a | e]]; cbn [bind fst snd].
  - destruct (k a). reflexivity.
  - rewrite app_nil_r. reflexivity.
Qed.

Lemma bind_snd {A B : Type} (m : M A) (k : A -> M B) :
  snd (bind m k) =
  match snd m with Ok a => snd (k a) | Raise e => Raise e end.
Proof.
  destruct m as [t [a | e]]; cbn [bind fst snd]; [|reflexivity].
  destruct (k a). reflexivity.
Qed.

Lemma bind_lift_Ok {A B : Type} (a : A) (k : A -> M B) :
  bind (lift (Ok a)) k = k a.
Proof. cbn. destruct (k a). reflexivity. Qed.

Lemma for_each_pure {A S : Type} (xs : list A) (body : A -> S -> M S) :
  (forall x s, fst (body x s) = []) ->
  forall s, fst (for_each xs body s) = [].
Proof.
  intros Hbody. induction xs as [| x xs IH]; intros s; cbn [for_each].
  - reflexivity.
  - rewrite bind_fst, Hbody. destruct (snd (body x s)); [apply IH | reflexivity].
Qed.

(** ** The loops of the endpoint *)

Section ServiceFacts.

Context {py : PythonRuntime}.

Lemma collect_video_ids_pure (search_response : Api.SearchListResponse) :
  fst (collect_video_ids search_response) = [].
Proof.
  unfold collect_video_ids. apply for_each_pure. intros item ids.
  destruct (dict_get (Api.sr_id item) Api.kind) as [k |]; [|reflexivity].
  destruct (String.eqb k "youtube#video"); [|reflexivity].
  rewrite bind_fst. cbn [lift fst snd app].
  destruct (_ : result string); reflexivity.
Qed.

(** *** The details loop *)

Lemma fetch_batch_fst youtube video_ids i acc :
  fst (fetch_batch youtube video_ids i acc)
  = [details_call (slice video_ids i (i + 50))].
Proof.
  unfold fetch_batch. cbv zeta. rewrite bind_fst. cbn [videos_list fst snd].
  destruct (videos_list_execute _ _); reflexivity.
Qed.

Lemma fetch_batch_snd youtube video_ids i acc :
  snd (fetch_batch youtube video_ids i acc)
  = match videos_list_execute youtube
            (str_join "," (slice video_ids i (i + 50))) with
    | Ok response => Ok (acc ++ get_or (Api.video_items response) [])
    | Raise e => Raise e
    end.
Proof.
  unfold fetch_batch. cbv zeta. rewrite bind_snd. cbn [videos_list fst snd].
  destruct (videos_list_execute _ _); reflexivity.
Qed.

Lemma fetch_loop_trace youtube video_ids (indices : list nat) :
  forall acc,
  exists sent rest,
    indices = sent ++ rest /\
    fst (for_each indices (fetch_batch youtube video_ids) acc)
    = map (fun i => details_call (slice video_ids i (i + 50))) sent /\
    (forall out,
        snd (for_each indices (fetch_batch youtube video_ids) acc) = Ok out ->
        rest = []).
Proof.
  induction indices as [| i indices IH]; intros acc.
  - exists [], []. repeat split.
  - cbn [for_each]. rewrite bind_fst, bind_snd, fetch_batch_fst, fetch_batch_snd.
    destruct (videos_list_execute youtube _) as [response | e].
    + destruct (IH (acc ++ get_or (Api.video_items response) []))
        as (sent & rest & -> & Ht & Hok).
      exists (i :: sent), rest. cbn [map app]. rewrite Ht.
      repeat split. exact Hok.
    + exists [i], indices. repeat split. discriminate.
Qed.


Lemma fetch_loop_agree y1 y2 video_ids (indices : list nat) :
  forall acc,
    agree_on (fst (for_each indices (fetch_batch y1 video_ids) acc)) y1 y2 ->
    for_each indices (fetch_batch y2 video_ids) acc
    = for_each indices (fetch_batch y1 video_ids) acc.
Proof.
  induction indices as [| i indices IH]; intros acc Hagree; [reflexivity|].
  cbn [for_each] in *.
  assert (Hbody : fetch_batch y2 video_ids i acc = fetch_batch y1 video_ids i acc).
  { assert (Hc : answer y1 (details_call (slice video_ids i (i + 50)))
                 = answer y2 (details_call (slice video_ids i (i + 50)))).
    { apply Hagree. rewrite bind_fst, fetch_batch_fst. left. reflexivity. }
    injection Hc as Hc. unfold fetch_batch, videos_list. cbv zeta.
    rewrite Hc. reflexivity. }
  rewrite Hbody.
  destruct (fetch_batch y1 video_ids i acc) as [t [acc' | e]] eqn:E;
    [|reflexivity].
  cbn [bind]. rewrite IH; [reflexivity|].
  intros c Hc. apply Hagree. cbn [bind fst].
  destruct (for_each indices (fetch_batch y1 video_ids) acc'). cbn [fst] in *.
  apply in_or_app. right. exact Hc.
Qed.

End ServiceFacts.

(** ** Batches *)







Lemma Forall2_In_r {A B : Type} (R : A -> B -> Prop) (l : list A)
      (l' : list B) (y : B) :
  Forall2 R l l' -> In y l' -> exists x, In x l /\ R x y.
Proof.
  induction 1 as [| a b l l' Hab HF IH]; intros Hin; [destruct Hin|].
  destruct Hin as [<- | Hin].
  - exists a. split; [left; reflexivity | exact Hab].
  - destruct (IH Hin) as (x & Hx & HR).
    exists x. split; [right; exact Hx | exact HR].
Qed.

Section PipelineFacts.

Context {py : PythonRuntime}.


(** *** The scoring loop *)

Lemma score_video_cases (video_data : Api.Video)
      (acc acc' : list ScoredVideo) :
  score_video video_data acc = Ok acc' ->
  (has_published_at video_data = false /\ acc' = acc) \/
  (has_published_at video_data = true /\
   exists entry,
     acc' = acc ++ [entry] /\
     score_video video_data [] = Ok [entry] /\
     Api.v_id video_data = Some (id (video entry))).
Proof.
  unfold score_video, has_published_at.
  destruct (Api.v_id video_data) as [video_id |]; cbn [getitem rbind];
    [|discriminate].
  destruct (int_if_truthy _) as [view_count |]; cbn [rbind]; [|discriminate].
  destruct (int_if_truthy _) as [like_count |]; cbn [rbind]; [|discriminate].
  destruct (dict_get (Api.snippet video_data) Api.publishedAt)
    as [[| c published_at] |]; cbn [truthy_str];
    try (intros [= <-]; left; split; reflexivity).
  destruct (calculate_score _ _ _) as [score |]; cbn [rbind]; [|discriminate].
  intros [= <-]. right. split; [reflexivity|].
  eexists. split; [reflexivity|]. split; reflexivity.
Qed.

(** The scored entries are made, in order, from the details items that
    carry a publication date. *)
Lemma score_loop_spec (detailed_videos : list Api.Video) :
  forall acc out,
    snd (for_each detailed_videos
           (fun video_data videos_with_scores =>
              lift (score_video video_data videos_with_scores)) acc)
    = Ok out ->
    exists entries,
      out = acc ++ entries /\
      Forall2 (fun video_data entry => score_video video_data [] = Ok [entry])
              (filter has_published_at detailed_videos) entries.
Proof.
  induction detailed_videos as [| d ds IH]; intros acc out Hout.
  - injection Hout as <-. exists []. rewrite app_nil_r. split; constructor.
  - cbn [for_each] in Hout. rewrite bind_snd in Hout. cbn [lift snd] in Hout.
    destruct (score_video d acc) as [acc' |] eqn:E; [|discriminate].
    destruct (IH _ _ Hout) as (entries & -> & HF).
    cbn [filter].
    destruct (score_video_cases _ _ _ E)
      as [[-> ->] | (-> & entry & -> & Hentry & _)].
    + exists entries. split; [reflexivity | exact HF].
    + exists (entry :: entries). rewrite <- app_assoc.
      split; [reflexivity | constructor; assumption].
Qed.

Lemma score_videos_spec (detailed_videos : list Api.Video)
      (videos_with_scores : list ScoredVideo) :
  snd (score_videos detailed_videos) = Ok videos_with_scores ->
  Forall2 (fun video_data entry => score_video video_data [] = Ok [entry])
          (filter has_published_at detailed_videos) videos_with_scores.
Proof.
  intros H. destruct (score_loop_spec _ _ _ H) as (entries & -> & HF).
  exact HF.
Qed.

Lemma scored_from_details (detailed_videos : list Api.Video)
      (videos_with_scores : list ScoredVideo) (entry : ScoredVideo) :
  snd (score_videos detailed_videos) = Ok videos_with_scores ->
  In entry videos_with_scores ->
  exists video_data,
    In video_data detailed_videos /\
    has_published_at video_data = true /\
    Api.v_id video_data = Some (id (video entry)).
Proof.
  intros H Hin. apply score_videos_spec in H.
  destruct (Forall2_In_r _ _ _ _ H Hin) as (d & Hd & Hde).
  apply filter_In in Hd. destruct Hd as [Hd Hdate].
  exists d. split; [exact Hd|]. split; [exact Hdate|].
  destruct (score_video_cases _ _ _ Hde)
    as [[_ Hnil] | (_ & entry' & Heq & _ & Hid)]; [discriminate|].
  cbn [app] in Heq. injection Heq as <-. exact Hid.
Qed.

End PipelineFacts.

Lemma except_clauses_fst {A : Type} (m : M A) :
  fst (except_clauses m) = fst m.
Proof. destruct m as [t [a | []]]; reflexivity. Qed.

Lemma except_clauses_snd {A : Type} (m : M A) :
  snd (except_clauses m) =
  match snd m with
  | Ok a => Ok a
  | Raise (HttpError status) => Raise (HTTPException status)
  | Raise _ => Raise (HTTPException 500)
  end.
Proof. destruct m as [t [a | []]]; reflexivity. Qed.

Lemma slice_to_nil {A : Type} (stop : Z) : slice_to (@nil A) stop = [].
Proof. unfold slice_to. destruct (0 <=? stop); apply firstn_nil. Qed.

Lemma rank_videos_nil (max_results : Z) : rank_videos [] max_results = [].
Proof. unfold rank_videos. cbn [list_sort rev stable_sort fold_left app].
       apply slice_to_nil. Qed.

Section EndpointFacts.

Context {py : PythonRuntime}.

Lemma validate_spec (req : Request) (query : string) (max_results : Z) :
  validate req = Ok (query, max_results) ->
  param_query req = Some query /\
  max_results = get_or (param_max_results req) 10 /\
  1 <= max_results <= INITIAL_FETCH_COUNT.
Proof.
  unfold validate. destruct (param_query req) as [q |]; [|discriminate].
  destruct (1 <=? _) eqn:Hlo; cbn [andb]; [|discriminate].
  destruct (_ <=? INITIAL_FETCH_COUNT) eqn:Hhi; [|discriminate].
  intros [= <- <-]. apply Z.leb_le in Hlo, Hhi. repeat split; assumption.
Qed.

Lemma get_search_snd (env : Environment) (req : Request) :
  snd (get_search env req) =
  match validate req with
  | Ok (query, max_results) =>
      match snd (search_videos_custom_score env query max_results) with
      | Ok results => Response200 results
      | Raise (HTTPException status_code) => ResponseError status_code
      | Raise _ => ResponseError 500
      end
  | Raise _ => ResponseError 422
  end.
Proof.
  unfold get_search. destruct (validate req) as [[q n] |]; [|reflexivity].
  destruct (search_videos_custom_score env q n) as [t [r | []]]; reflexivity.
Qed.

(** The outcome of the endpoint in terms of its stages. *)
Lemma endpoint_snd (env : Environment) (youtube : YouTube)
      (query : string) (max_results : Z) :
  get_youtube_service env = Ok youtube ->
  snd (search_videos_custom_score env query max_results) =
  match
    (search_response <- search_list_execute youtube query INITIAL_FETCH_COUNT ;;
     video_ids <- snd (collect_video_ids search_response) ;;
     match video_ids with
     | [] => Ok []
     | _ :: _ =>
         detailed_videos <- snd (fetch_details youtube video_ids) ;;
         videos_with_scores <- snd (score_videos detailed_videos) ;;
         Ok (map video (rank_videos videos_with_scores max_results))
     end)%result
  with
  | Ok results => Ok results
  | Raise (HttpError status) => Raise (HTTPException status)
  | Raise _ => Raise (HTTPException 500)
  end.
Proof.
  intros Hy. unfold search_videos_custom_score.
  rewrite Hy, bind_lift_Ok, except_clauses_snd. f_equal.
  rewrite bind_snd. cbn [search_list snd].
  destruct (search_list_execute youtube query INITIAL_FETCH_COUNT)
    as [search_response |]; cbn [rbind]; [|reflexivity].
  rewrite bind_snd.
  destruct (snd (collect_video_ids search_response)) as [[| v ids] |];
    cbn [rbind]; try reflexivity.
  rewrite bind_snd.
  destruct (snd (fetch_details youtube (v :: ids))) as [detailed |];
    cbn [rbind]; [|reflexivity].
  rewrite bind_snd.
  destruct (snd (score_videos detailed)) as [scored |]; reflexivity.
Qed.


(** A 200 answer comes from a run that reached the sort. *)
Lemma get_search_ok (env : Environment) (req : Request)
      (results : list VideoItem) :
  snd (get_search env req) = Response200 results ->
  exists video_ids detailed_videos videos_with_scores,
    ranked env req video_ids detailed_videos videos_with_scores results.
Proof.
  rewrite get_search_snd.
  destruct (validate req) as [[query max_results] |] eqn:Hv; [|discriminate].
  destruct (validate_spec _ _ _ Hv) as (_ & _ & Hrange).
  destruct (get_youtube_service env) as [youtube | e] eqn:Hy.
  - rewrite (endpoint_snd _ _ _ _ Hy).
    destruct (search_list_execute youtube query INITIAL_FETCH_COUNT)
      as [sr | e] eqn:Hs; cbn [rbind]; [|destruct e; discriminate].
    destruct (snd (collect_video_ids sr)) as [ids | e] eqn:Hc;
      cbn [rbind]; [|destruct e; discriminate].
    destruct ids as [| v ids].
    + intros [= <-]. exists [], [], [], youtube, query, max_results.
      rewrite rank_videos_nil.
      repeat split; try assumption; try apply Hrange.
      exact (run_empty_pool _ _ sr Hs Hc).
    + destruct (snd (fetch_details youtube (v :: ids)))
        as [detailed | e] eqn:Hf; cbn [rbind]; [|destruct e; discriminate].
      destruct (snd (score_videos detailed)) as [scored | e] eqn:Hsc;
        cbn [rbind]; [|destruct e; discriminate].
      intros [= <-].
      exists (v :: ids), detailed, scored, youtube, query, max_results.
      repeat split; try assumption; try apply Hrange.
      apply (run_scored _ _ sr); try assumption. discriminate.
  - unfold search_videos_custom_score. rewrite Hy. cbn [lift bind snd].
    destruct e; discriminate.
Qed.

End EndpointFacts.

Lemma firstn_In {A : Type} (n : nat) (l : list A) (x : A) :
  In x (firstn n l) -> In x l.
Proof.
  intros H. rewrite <- (firstn_skipn n l). apply in_or_app. left. exact H.
Qed.


Section PipelineTheorems.

Context {py : PythonRuntime}.

Lemma rank_videos_incl (videos_with_scores : list ScoredVideo)
      (max_results : Z) (entry : ScoredVideo) :
  In entry (rank_videos videos_with_scores max_results) ->
  In entry videos_with_scores.
Proof.
  unfold rank_videos, slice_to. intros H.
  assert (Hs : In entry (list_sort customScore true videos_with_scores))
    by (destruct (0 <=? max_results); exact (firstn_In _ _ _ H)).
  exact (Permutation_in entry
           (Permutation_sym (list_sort_perm customScore true _)) Hs).
Qed.





(** C7.  In a request answered 200, a candidate identifier that no
    details item carries belongs to no scored entry and to no item of
    the answer. *)
Theorem absent_from_details_dropped
        (env : Environment) (req : Request) (results : list VideoItem) :
  snd (get_search env req) = Response200 results ->
  exists video_ids detailed_videos videos_with_scores,
    ranked env req video_ids detailed_videos videos_with_scores results /\
    forall video_id,
      In video_id video_ids ->
      ~ In (Some video_id) (detail_ids detailed_videos) ->
      ~ In video_id (map (fun entry => id (video entry)) videos_with_scores)
      /\ ~ In video_id (map id results).
Proof.
  intros H. destruct (get_search_ok _ _ _ H) as (ids & detailed & scored & R).
  exists ids, detailed, scored. split; [exact R|].
  destruct R as (youtube & query & n & _ & _ & _ & Hrun & ->).
  assert (Hscored : forall entry, In entry scored ->
                                  In (Some (id (video entry)))
                                     (detail_ids detailed)).
  { intros entry Hentry.
    destruct Hrun as [sr Hs Hc | sr ids detailed scored Hs Hc Hne Hf Hsc];
      [destruct Hentry|].
    destruct (scored_from_details _ _ _ Hsc Hentry) as (d & Hd & _ & <-).
    apply in_map. exact Hd. }
  intros video_id _ Habsent. split; intros Hin; apply Habsent.
  - apply in_map_iff in Hin. destruct Hin as (entry & <- & Hentry).
    apply Hscored, Hentry.
  - rewrite map_map in Hin.
    apply in_map_iff in Hin. destruct Hin as (entry & <- & Hentry).
    apply Hscored, (rank_videos_incl _ _ _ Hentry).
Qed.

(** C10.  In a request answered 200, the scored entries are made, one
    each and in order, from the details items that carry a publication
    date: an item without one yields no entry, so the answer has no
    more items than there are dated details items and each of its
    items is made from a dated one. *)
Theorem missing_date_excluded
        (env : Environment) (req : Request) (results : list VideoItem) :
  snd (get_search env req) = Response200 results ->
  exists video_ids detailed_videos videos_with_scores,
    ranked env req video_ids detailed_videos videos_with_scores results /\
    Forall2 (fun video_data entry => score_video video_data [] = Ok [entry])
            (filter has_published_at detailed_videos) videos_with_scores /\
    forall item,
      In item results ->
      exists video_data entry,
        In video_data detailed_videos /\
        has_published_at video_data = true /\
        score_video video_data [] = Ok [entry] /\
        item = video entry.
Proof.
  intros H. destruct (get_search_ok _ _ _ H) as (ids & detailed & scored & R).
  exists ids, detailed, scored. split; [exact R|].
  destruct R as (youtube & query & n & _ & _ & _ & Hrun & ->).
  assert (HF : Forall2
                 (fun video_data entry =>
                    score_video video_data [] = Ok [entry])
                 (filter has_published_at detailed) scored).
  { destruct Hrun as [sr Hs Hc | sr ids detailed scored Hs Hc Hne Hf Hsc];
      [constructor | apply score_videos_spec, Hsc]. }
  split; [exact HF|].
  intros item Hitem.
  apply in_map_iff in Hitem. destruct Hitem as (entry & <- & Hentry).
  apply rank_videos_incl in Hentry.
  destruct (Forall2_In_r _ _ _ _ HF Hentry) as (d & Hd & Hde).
  apply filter_In in Hd. destruct Hd as [Hd Hdate].
  exists d, entry. repeat split; assumption.
Qed.

(** C8.  The outcome of a request (the calls issued and the answer) is
    determined by the request and by the answers of the external API
    to the calls of the run: against a second client that answers
    these calls alike, the run issues the same calls and gives the
    same answer. *)
Theorem ranking_deterministic
        (env1 env2 : Environment) (req : Request) (y1 y2 : YouTube) :
  get_youtube_service env1 = Ok y1 ->
  get_youtube_service env2 = Ok y2 ->
  agree_on (fst (get_search env1 req)) y1 y2 ->
  get_search env2 req = get_search env1 req.
Proof.
  intros H1 H2. unfold get_search.
  destruct (validate req) as [[query n] |]; [|reflexivity].
  intros Hagree.
  assert (E : search_videos_custom_score env2 query n
              = search_videos_custom_score env1 query n);
    [|rewrite E; reflexivity].
  assert (Ht : agree_on (fst (search_videos_custom_score env1 query n)) y1 y2).
  { destruct (search_videos_custom_score env1 query n) as [t [r | []]];
      exact Hagree. }
  clear Hagree. revert Ht. unfold search_videos_custom_score.
  rewrite H1, H2, !bind_lift_Ok, except_clauses_fst. intros Ht.
  f_equal.
  assert (Hs : search_list y2 query INITIAL_FETCH_COUNT
               = search_list y1 query INITIAL_FETCH_COUNT).
  { assert (Hc : answer y1 (SearchList query INITIAL_FETCH_COUNT)
                 = answer y2 (SearchList query INITIAL_FETCH_COUNT))
      by (apply Ht; rewrite bind_fst; left; reflexivity).
    injection Hc as Hc. unfold search_list. rewrite Hc. reflexivity. }
  rewrite Hs. rewrite bind_fst in Ht. cbn [search_list fst snd] in Ht.
  unfold search_list at 1 2.
  destruct (search_list_execute y1 query INITIAL_FETCH_COUNT)
    as [sr | e]; [|reflexivity].
  cbn [bind]. rewrite bind_fst, collect_video_ids_pure in Ht.
  cbn [app] in Ht.
  destruct (collect_video_ids sr) as [tc [[| v ids] | e]];
    cbn [bind snd] in *; try reflexivity.
  rewrite bind_fst in Ht. unfold fetch_details in *.
  rewrite (fetch_loop_agree y1 y2 (v :: ids)); [reflexivity|].
  intros c Hc. apply Ht. right. apply in_or_app. left. exact Hc.
Qed.

(** C9 (amended).  A request without [query], or with [max_results]
    outside [1 .. 50], is answered 422 without any outbound call. *)
Theorem invalid_request_rejected (env : Environment) (req : Request) :
  param_query req = None \/
  (exists n, param_max_results req = Some n /\ (n < 1 \/ 50 < n)) ->
  get_search env req = ([], ResponseError 422).
Proof.
  intros H. unfold get_search, validate.
  destruct (param_query req) as [query |]; [|reflexivity].
  destruct H as [H | (n & -> & Hn)]; [discriminate|].
  cbn [get_or]. unfold INITIAL_FETCH_COUNT.
  destruct (Z.leb_spec 1 n), (Z.leb_spec n 50); cbn [andb];
    try reflexivity. lia.
Qed.

End PipelineTheorems.

(** ** The theorems on the example world *)



(** Counterexample to C3: the quotient of the counts overflows. *)
Lemma calculate_score_overflow :
  @calculate_score CPython.runtime (Some 1) (Some (2 ^ 1024))
                   "2024-01-01T00:00:00Z"
  = Raise OverflowError.
Proof. vm_compute. reflexivity. Qed.

(** Witness of C3: likes without views, and a date that does not parse. *)
Lemma calculate_score_finite_witness :
  exists score,
    @calculate_score CPython.runtime (Some 0) (Some 5) "yesterday" = Ok score /\
    Float.is_finite score = true.
Proof.
  apply (@calculate_score_finite CPython.runtime CPythonFacts.runtime_laws
           (Some 0) (Some 5) "yesterday").
  vm_compute. reflexivity.
Defined.

(** Witness of C4: A and E tie and keep their order behind B. *)
Lemma ranking_is_stable_witness :
  exists m1 m2 m3,
    Example.videos_with_scores
    = m1 ++ Example.entry_A :: m2 ++ Example.entry_E :: m3.
Proof.
  apply (ranking_is_stable Example.videos_with_scores 10
           Example.entry_A Example.entry_E [Example.entry_B] [] []);
    reflexivity.
Defined.



(** Witness of C7: C is missing from the details. *)
Lemma absent_from_details_dropped_witness :
  exists video_ids detailed_videos videos_with_scores,
    @ranked CPython.runtime Example.env Example.request video_ids
            detailed_videos videos_with_scores Example.results /\
    forall video_id,
      In video_id video_ids ->
      ~ In (Some video_id) (detail_ids detailed_videos) ->
      ~ In video_id (map (fun entry => id (video entry)) videos_with_scores)
      /\ ~ In video_id (map id Example.results).
Proof.
  apply (@absent_from_details_dropped CPython.runtime Example.env
           Example.request Example.results).
  reflexivity.
Defined.

(** Witness of C8: the second client answers the calls of the run alike. *)
Lemma ranking_deterministic_witness :
  @get_search CPython.runtime Example.env2 Example.request
  = @get_search CPython.runtime Example.env Example.request.
Proof.
  apply (@ranking_deterministic CPython.runtime Example.env Example.env2
           Example.request Example.youtube Example.youtube2).
  - reflexivity.
  - reflexivity.
  - intros c [<- | [<- | []]]; reflexivity.
Defined.

(** Counterexample to C9: an empty query is searched for. *)
Lemma empty_query_accepted :
  @get_search CPython.runtime Example.env Example.empty_query
  = ([SearchList "" 50], Response200 []).
Proof. vm_compute. reflexivity. Qed.

(** Witness of C9: a request for 51 results. *)
Lemma invalid_request_rejected_witness :
  @get_search CPython.runtime Example.env
              {| param_query := Some "cats"; param_max_results := Some 51 |}
  = ([], ResponseError 422).
Proof.
  apply (@invalid_request_rejected CPython.runtime).
  right. exists 51. split; [reflexivity | right; reflexivity].
Defined.

(** Witness of C10: D has no publication date. *)
Lemma missing_date_excluded_witness :
  exists video_ids detailed_videos videos_with_scores,
    @ranked CPython.runtime Example.env Example.request video_ids
            detailed_videos videos_with_scores Example.results /\
    Forall2 (fun video_data entry =>
               @score_video CPython.runtime video_data [] = Ok [entry])
            (filter has_published_at detailed_videos) videos_with_scores /\
    forall item,
      In item Example.results ->
      exists video_data entry,
        In video_data detailed_videos /\
        has_published_at video_data = true /\
        @score_video CPython.runtime video_data [] = Ok [entry] /\
        item = video entry.
Proof.
  apply (@missing_date_excluded CPython.runtime Example.env Example.request
           Example.results).
  reflexivity.
Defined.

(** * Further properties *)

(** ** The ranked list *)

Section RankFacts.

Context {A : Type} (key : A -> float).

Lemma stable_sort_ascending (l acc : list A) :
  ascending key acc ->
  ascending key (fold_left (fun s x => insert_sorted key x s) l acc).
Proof.
  revert acc. induction l as [| x l IH]; intros acc Hacc; cbn [fold_left].
  - exact Hacc.
  - apply IH, insert_sorted_ascending, Hacc.
Qed.

Lemma StronglySorted_app_inv {R : A -> A -> Prop} (l1 l2 : list A) :
  StronglySorted R (l1 ++ l2) ->
  StronglySorted R l1 /\ StronglySorted R l2 /\
  forall x y, In x l1 -> In y l2 -> R x y.
Proof.
  induction l1 as [| a l1 IH]; cbn [app]; intros H.
  - repeat split; [constructor | exact H | intros x y []].
  - inversion H as [| ? ? Hs Hall]; subst.
    destruct (IH Hs) as (H1 & H2 & H12).
    rewrite Forall_forall in Hall.
    repeat split.
    + constructor; [exact H1|]. rewrite Forall_forall. intros y Hy.
      apply Hall, in_or_app. left. exact Hy.
    + exact H2.
    + intros x y [<- | Hx] Hy; [|apply H12; assumption].
      apply Hall, in_or_app. right. exact Hy.
Qed.

Lemma StronglySorted_app {R : A -> A -> Prop} (l1 l2 : list A) :
  StronglySorted R l1 -> StronglySorted R l2 ->
  (forall x y, In x l1 -> In y l2 -> R x y) ->
  StronglySorted R (l1 ++ l2).
Proof.
  intros H1 H2 H12. induction H1 as [| a l1 Hs IH Hall]; cbn [app];
    [exact H2|].
  constructor.
  - apply IH. intros x y Hx Hy. apply H12; [right; exact Hx | exact Hy].
  - rewrite Forall_forall in *. intros y Hy.
    apply in_app_or in Hy. destruct Hy as [Hy | Hy];
      [apply Hall, Hy | apply H12; [left; reflexivity | exact Hy]].
Qed.

Lemma StronglySorted_rev {R : A -> A -> Prop} (l : list A) :
  StronglySorted R l -> StronglySorted (fun x y => R y x) (rev l).
Proof.
  induction 1 as [| a l Hs IH Hall]; cbn [rev]; [constructor|].
  apply StronglySorted_app; [exact IH | repeat constructor |].
  intros x y Hx [<- | []]. rewrite Forall_forall in Hall.
  apply Hall, in_rev, Hx.
Qed.

Lemma StronglySorted_firstn {R : A -> A -> Prop} (n : nat) (l : list A) :
  StronglySorted R l -> StronglySorted R (firstn n l).
Proof.
  intros H. rewrite <- (firstn_skipn n l) in H.
  apply StronglySorted_app_inv in H. apply H.
Qed.

Lemma list_sort_reverse_descending (l : list A) :
  descending key (list_sort key true l).
Proof.
  unfold descending, list_sort, stable_sort.
  apply (StronglySorted_rev
           (R := fun x y => Float.ltb (key y) (key x) = false)).
  apply stable_sort_ascending. constructor.
Qed.

Lemma insert_sorted_last (x : A) (l : list A) :
  (forall y, In y l -> Float.ltb (key x) (key y) = false) ->
  insert_sorted key x l = l ++ [x].
Proof.
  induction l as [| z l IH]; intros H; cbn [insert_sorted app];
    [reflexivity|].
  rewrite (H z (or_introl eq_refl)), IH; [reflexivity|].
  intros y Hy. apply H. right. exact Hy.
Qed.

Lemma stable_sort_sorted (l acc : list A) :
  ascending key (acc ++ l) ->
  fold_left (fun s x => insert_sorted key x s) l acc = acc ++ l.
Proof.
  revert acc. induction l as [| x l IH]; intros acc H; cbn [fold_left].
  - rewrite app_nil_r. reflexivity.
  - assert (E : insert_sorted key x acc = acc ++ [x]).
    { apply insert_sorted_last. intros y Hy.
      apply StronglySorted_app_inv in H. destruct H as (_ & _ & H).
      apply (H y x Hy). left. reflexivity. }
    rewrite E, IH; rewrite <- app_assoc; [reflexivity | exact H].
Qed.

Lemma list_sort_reverse_sorted (l : list A) :
  descending key l -> list_sort key true l = l.
Proof.
  intros H. unfold list_sort, stable_sort.
  rewrite stable_sort_sorted; [apply rev_involutive|].
  cbn [app]. apply (StronglySorted_rev (R := fun x y => Float.ltb (key x) (key y) = false)).
  exact H.
Qed.

End RankFacts.

Lemma rank_videos_sorted
      (videos_with_scores : list ScoredVideo) (max_results : Z) :
  descending customScore (rank_videos videos_with_scores max_results).
Proof.
  unfold rank_videos, slice_to. cbv zeta.
  destruct (0 <=? max_results);
    apply StronglySorted_firstn, list_sort_reverse_descending.
Qed.

(** X1.  The ranked list is in descending order of score: no entry is
    followed, anywhere later, by one of greater score. *)
Theorem rank_videos_descending
        (videos_with_scores : list ScoredVideo) (max_results : Z)
        (before after : list ScoredVideo) (a b : ScoredVideo) (between : list ScoredVideo) :
  rank_videos videos_with_scores max_results
  = before ++ a :: between ++ b :: after ->
  Float.ltb (customScore a) (customScore b) = false.
Proof.
  intros E.
  pose proof (rank_videos_sorted videos_with_scores max_results) as H.
  rewrite E in H. unfold descending in H.
  apply StronglySorted_app_inv in H. destruct H as (_ & H & _).
  inversion H as [| ? ? _ Hall]; subst.
  rewrite Forall_forall in Hall. apply Hall, in_or_app. right. left.
  reflexivity.
Qed.

(** X2.  The ranked list holds entries of [videos_with_scores] with
    their multiplicity: together with the entries cut off it is a
    permutation of the input, so nothing is duplicated or invented. *)
Theorem rank_videos_part_of_permutation
        (videos_with_scores : list ScoredVideo) (max_results : Z) :
  exists cut_off,
    Permutation videos_with_scores
                (rank_videos videos_with_scores max_results ++ cut_off).
Proof.
  unfold rank_videos, slice_to. cbv zeta.
  destruct (0 <=? max_results);
    match goal with
    | |- context [firstn ?n ?l] =>
        exists (skipn n l); rewrite firstn_skipn; apply list_sort_perm
    end.
Qed.

(** X3.  Asking for more results only appends: the list ranked for [n]
    is an initial part of the list ranked for any [m >= n]. *)
Theorem rank_videos_prefix
        (videos_with_scores : list ScoredVideo) (n m : Z) :
  0 <= n <= m ->
  exists more,
    rank_videos videos_with_scores m = rank_videos videos_with_scores n ++ more.
Proof.
  intros H. unfold rank_videos, slice_to. cbv zeta.
  destruct (Z.leb_spec 0 n), (Z.leb_spec 0 m); try lia.
  set (sorted := list_sort customScore true videos_with_scores).
  exists (skipn (Z.to_nat n) (firstn (Z.to_nat m) sorted)).
  rewrite <- (firstn_skipn (Z.to_nat n) (firstn (Z.to_nat m) sorted)) at 1.
  rewrite firstn_firstn. f_equal. f_equal. lia.
Qed.

(** X4.  Ranking is idempotent: ranking the ranked list again, for the
    same non-negative count, changes nothing. *)
Theorem rank_videos_idempotent
        (videos_with_scores : list ScoredVideo) (max_results : Z) :
  0 <= max_results ->
  rank_videos (rank_videos videos_with_scores max_results) max_results
  = rank_videos videos_with_scores max_results.
Proof.
  intros H.
  pose proof (rank_videos_sorted videos_with_scores max_results) as Hd.
  set (ranked := rank_videos videos_with_scores max_results) in *.
  unfold rank_videos at 1. cbv zeta.
  rewrite list_sort_reverse_sorted by exact Hd.
  unfold slice_to. destruct (Z.leb_spec 0 max_results); [|lia].
  apply firstn_all2. unfold ranked, rank_videos, slice_to. cbv zeta.
  destruct (Z.leb_spec 0 max_results); [|lia].
  apply firstn_le_length.
Qed.

(** ** Further properties of the endpoint *)

Section EndpointExtras.

Context {py : PythonRuntime}.

Lemma collect_step_snd (item : Api.SearchResult) (video_ids : list string) :
  snd (match dict_get (Api.sr_id item) Api.kind with
       | Some k =>
           if String.eqb k "youtube#video" then
             bind (lift (resource <- getitem (Api.sr_id item) ;;
                         getitem (Api.videoId resource))%result)
                  (fun videoId => ret (video_ids ++ [videoId]))
           else ret video_ids
       | None => ret video_ids
       end)
  = if is_video_result item then
      match result_videoId item with
      | Some videoId => Ok (video_ids ++ [videoId])
      | None => Raise KeyError
      end
    else Ok video_ids.
Proof.
  unfold is_video_result, result_videoId.
  destruct (Api.sr_id item) as [r |]; cbn [dict_get]; [|reflexivity].
  destruct (Api.kind r) as [k |]; [|reflexivity].
  destruct (String.eqb k "youtube#video"); [|reflexivity].
  cbn [getitem rbind]. destruct (Api.videoId r); reflexivity.
Qed.

Lemma collect_loop_spec (items : list Api.SearchResult) :
  forall acc out,
    snd (for_each items
           (fun item video_ids =>
              match dict_get (Api.sr_id item) Api.kind with
              | Some k =>
                  if String.eqb k "youtube#video" then
                    bind (lift (resource <- getitem (Api.sr_id item) ;;
                                getitem (Api.videoId resource))%result)
                         (fun videoId => ret (video_ids ++ [videoId]))
                  else ret video_ids
              | None => ret video_ids
              end) acc) = Ok out <->
    exists video_ids,
      out = acc ++ video_ids /\
      map Some video_ids
      = map result_videoId (filter is_video_result items).
Proof.
  induction items as [| item items IH]; intros acc out; cbn [for_each].
  - cbn [ret snd filter map]. split.
    + intros [= <-]. exists []. rewrite app_nil_r. split; reflexivity.
    + intros (ids & -> & Hids). destruct ids; [|discriminate].
      rewrite app_nil_r. reflexivity.
  - rewrite bind_snd, collect_step_snd. cbn [filter].
    destruct (is_video_result item).
    + cbn [map]. destruct (result_videoId item) as [v |].
      * rewrite IH. split.
        -- intros (ids & -> & Hids). exists (v :: ids).
           rewrite <- app_assoc. cbn [map app]. rewrite Hids.
           split; reflexivity.
        -- intros (ids & -> & Hids). destruct ids as [| v' ids];
             [discriminate|].
           cbn [map] in Hids. injection Hids as <- Hids.
           exists ids. rewrite <- app_assoc. split; [reflexivity | exact Hids].
      * split; [discriminate|].
        intros (ids & _ & Hids). destruct ids; discriminate.
    + apply IH.
Qed.

(** X8.  The identifier loop succeeds exactly when every search result
    of kind ["youtube#video"] carries a [videoId], and then yields these
    identifiers in the order of the search answer, leaving out the
    results of any other kind. *)
Theorem collect_video_ids_spec
        (search_response : Api.SearchListResponse) (video_ids : list string) :
  snd (collect_video_ids search_response) = Ok video_ids <->
  map Some video_ids
  = map result_videoId
        (filter is_video_result
                (get_or (Api.search_items search_response) [])).
Proof.
  unfold collect_video_ids. rewrite collect_loop_spec. cbn [app]. split.
  - intros (ids & -> & H). exact H.
  - intros H. exists video_ids. split; [reflexivity | exact H].
Qed.

End EndpointExtras.

Section EndpointExtras2.

Context {py : PythonRuntime}.

Lemma score_videos_pure (detailed_videos : list Api.Video) :
  fst (score_videos detailed_videos) = [].
Proof. unfold score_videos. apply for_each_pure. reflexivity. Qed.

Lemma get_search_fst (env : Environment) (req : Request)
      (query : string) (max_results : Z) :
  validate req = Ok (query, max_results) ->
  fst (get_search env req)
  = fst (search_videos_custom_score env query max_results).
Proof.
  intros Hv. unfold get_search. rewrite Hv.
  destruct (search_videos_custom_score env query max_results)
    as [t [r | []]]; reflexivity.
Qed.

(** The calls of the endpoint in terms of its stages. *)
Lemma endpoint_fst (env : Environment) (youtube : YouTube)
      (query : string) (max_results : Z) :
  get_youtube_service env = Ok youtube ->
  fst (search_videos_custom_score env query max_results) =
  SearchList query INITIAL_FETCH_COUNT ::
  match search_list_execute youtube query INITIAL_FETCH_COUNT with
  | Ok search_response =>
      match snd (collect_video_ids search_response) with
      | Ok (v :: video_ids) => fst (fetch_details youtube (v :: video_ids))
      | _ => []
      end
  | Raise _ => []
  end.
Proof.
  intros Hy. unfold search_videos_custom_score.
  rewrite Hy, bind_lift_Ok, except_clauses_fst, bind_fst.
  cbn [search_list fst snd app]. f_equal.
  destruct (search_list_execute youtube query INITIAL_FETCH_COUNT)
    as [sr |]; [|reflexivity].
  rewrite bind_fst, collect_video_ids_pure. cbn [app].
  destruct (snd (collect_video_ids sr)) as [[| v ids] |]; try reflexivity.
  rewrite bind_fst.
  destruct (snd (fetch_details youtube (v :: ids))) as [detailed |];
    [|apply app_nil_r].
  rewrite bind_fst, score_videos_pure. cbn [app].
  destruct (snd (score_videos detailed)); cbn [ret fst]; apply app_nil_r.
Qed.

Lemma get_youtube_service_raises (env : Environment) (e : exn) :
  get_youtube_service env = Raise e -> e = HTTPException 500.
Proof.
  unfold get_youtube_service.
  destruct (YOUTUBE_API_KEY env) as [[| c key] |]; try (intros [= <-]; reflexivity).
  destruct (build env _ _ _); [discriminate | intros [= <-]; reflexivity].
Qed.

(** X5.  When the API key is missing or empty, or the client cannot be
    built, a valid request is answered 500 and no outbound call is
    made. *)
Theorem no_service_no_call
        (env : Environment) (req : Request) (query : string) (max_results : Z) :
  validate req = Ok (query, max_results) ->
  truthy_str (YOUTUBE_API_KEY env) = false \/
  (exists key e,
      YOUTUBE_API_KEY env = Some key /\
      build env YOUTUBE_API_SERVICE_NAME YOUTUBE_API_VERSION key = Raise e) ->
  get_search env req = ([], ResponseError 500).
Proof.
  intros Hv Hfail. unfold get_search. rewrite Hv.
  unfold search_videos_custom_score.
  assert (Hs : get_youtube_service env = Raise (HTTPException 500)).
  { unfold get_youtube_service.
    destruct Hfail as [Hkey | (key & e & Hkey & Hbuild)].
    - destruct (YOUTUBE_API_KEY env) as [[| c key] |];
        try reflexivity; discriminate.
    - rewrite Hkey. destruct key as [| c key]; [reflexivity|].
      rewrite Hbuild. reflexivity. }
  rewrite Hs. reflexivity.
Qed.


Lemma score_video_rejected (video_data : Api.Video)
      (acc : list ScoredVideo) :
  count_rejected video_data ->
  exists e, score_video video_data acc = Raise e.
Proof.
  intros (s & e & Hs & Hne & Hint). unfold score_video.
  destruct (Api.v_id video_data) as [video_id |]; cbn [getitem rbind];
    [|eexists; reflexivity].
  destruct s as [| c s]; [contradiction|].
  destruct Hs as [Hs | Hs].
  - rewrite Hs. cbn [int_if_truthy]. rewrite Hint. eexists. reflexivity.
  - destruct (int_if_truthy (dict_get (Api.statistics video_data) Api.viewCount));
      cbn [rbind]; [|eexists; reflexivity].
    rewrite Hs. cbn [int_if_truthy]. rewrite Hint. eexists. reflexivity.
Qed.

Lemma score_loop_rejected (detailed_videos : list Api.Video)
      (video_data : Api.Video) :
  In video_data detailed_videos -> count_rejected video_data ->
  forall acc,
  exists e,
    snd (for_each detailed_videos
           (fun video_data videos_with_scores =>
              lift (score_video video_data videos_with_scores)) acc)
    = Raise e.
Proof.
  intros Hin Hbad.
  induction detailed_videos as [| d ds IH]; [destruct Hin|].
  intros acc. cbn [for_each]. rewrite bind_snd. cbn [lift snd].
  destruct Hin as [-> | Hin].
  - destruct (score_video_rejected video_data acc Hbad) as (e & ->).
    exists e. reflexivity.
  - destruct (score_video d acc) as [acc' | e]; [apply IH, Hin|].
    exists e. reflexivity.
Qed.

(** X7.  A details item one of whose statistics counts is a non-empty
    string that [int] rejects makes the whole request fail, whether or
    not the item has a publication date: the counts are converted before
    the date is looked at. *)
Theorem malformed_count_fails_request
        (env : Environment) (req : Request) (youtube : YouTube)
        (query : string) (max_results : Z) (video_ids : list string)
        (detailed_videos : list Api.Video) (video_data : Api.Video) :
  validate req = Ok (query, max_results) ->
  get_youtube_service env = Ok youtube ->
  details_fetched youtube query video_ids detailed_videos ->
  In video_data detailed_videos ->
  count_rejected video_data ->
  exists status_code, snd (get_search env req) = ResponseError status_code.
Proof.
  intros Hv Hy (sr & Hs & Hc & Hne & Hf) Hin Hbad.
  rewrite get_search_snd, Hv, (endpoint_snd _ _ _ _ Hy), Hs.
  cbn [rbind]. rewrite Hc. cbn [rbind].
  destruct video_ids as [| v ids]; [contradiction|].
  rewrite Hf. cbn [rbind].
  destruct (score_loop_rejected _ _ Hin Hbad []) as (e & He).
  unfold score_videos. rewrite He. cbn [rbind].
  destruct e; eexists; reflexivity.
Qed.

Lemma batches_nil : batches [] = [].
Proof. reflexivity. Qed.

Lemma fetch_details_calls (youtube : YouTube) (video_ids : list string)
      (detailed_videos : list Api.Video) :
  snd (fetch_details youtube video_ids) = Ok detailed_videos ->
  fst (fetch_details youtube video_ids)
  = map details_call (batches video_ids).
Proof.
  intros H. unfold fetch_details in *. unfold batches.
  destruct (fetch_loop_trace youtube video_ids
              (range 0 (List.length video_ids) 50) [])
    as (sent & rest & E & Ht & Hok).
  rewrite (Hok _ H), app_nil_r in E. subst sent.
  rewrite Ht, map_map. reflexivity.
Qed.

(** X9.  A request answered 200 has issued exactly one search call,
    for the query as given and for 50 results whatever [max_results]
    is, followed by one details call per batch of the pool, in order
    (none for an empty pool). *)
Theorem calls_of_successful_request
        (env : Environment) (req : Request) (t : list call)
        (results : list VideoItem) :
  get_search env req = (t, Response200 results) ->
  exists query video_ids detailed_videos videos_with_scores,
    param_query req = Some query /\
    ranked env req video_ids detailed_videos videos_with_scores results /\
    t = SearchList query 50 :: map details_call (batches video_ids).
Proof.
  intros H.
  assert (Hsnd : snd (get_search env req) = Response200 results)
    by (rewrite H; reflexivity).
  assert (Hfst : fst (get_search env req) = t) by (rewrite H; reflexivity).
  destruct (get_search_ok _ _ _ Hsnd) as (ids & detailed & scored & R).
  pose proof R as (youtube & query & n & Hv & _ & Hy & Hrun & _).
  exists query, ids, detailed, scored.
  destruct (validate_spec _ _ _ Hv) as (Hq & _ & _).
  split; [exact Hq|]. split; [exact R|].
  rewrite <- Hfst, (get_search_fst _ _ _ _ Hv), (endpoint_fst _ _ _ _ Hy).
  unfold INITIAL_FETCH_COUNT. f_equal.
  destruct Hrun as [sr Hs Hc | sr ids detailed scored Hs Hc Hne Hf Hsc];
    unfold INITIAL_FETCH_COUNT in Hs; rewrite Hs, Hc.
  - reflexivity.
  - destruct ids as [| v ids]; [contradiction|].
    apply (fetch_details_calls _ _ _ Hf).
Qed.

Lemma range_single (n : nat) :
  (1 <= n <= 50)%nat -> range 0 n 50 = [0%nat].
Proof.
  intros H. unfold range.
  assert (E : ((n - 0 + 50 - 1) / 50 = 1)%nat).
  { symmetry. apply (Nat.div_unique _ 50 1 (n - 1)); lia. }
  rewrite E. reflexivity.
Qed.

(** X12.  A pool of 1 to 50 identifiers (the search asks for at most
    50) is fetched with a single details call that carries all of them. *)
Theorem single_details_call (youtube : YouTube) (video_ids : list string) :
  (1 <= List.length video_ids <= 50)%nat ->
  batches video_ids = [video_ids] /\
  fst (fetch_details youtube video_ids) = [details_call video_ids].
Proof.
  intros H.
  assert (Hslice : slice video_ids 0 (0 + 50) = video_ids)
    by (unfold slice; cbn [skipn]; apply firstn_all2; lia).
  split.
  - unfold batches. rewrite (range_single _ H). cbn [map].
    rewrite Hslice. reflexivity.
  - unfold fetch_details. rewrite (range_single _ H). cbn [for_each].
    rewrite bind_fst, fetch_batch_fst, Hslice.
    destruct (snd (fetch_batch youtube video_ids 0 [])); reflexivity.
Qed.

Lemma fetch_loop_responses (youtube : YouTube) (video_ids : list string)
      (indices : list nat) :
  forall acc out,
    snd (for_each indices (fetch_batch youtube video_ids) acc) = Ok out ->
    exists responses,
      Forall2 (fun i response =>
                 videos_list_execute youtube
                   (str_join "," (slice video_ids i (i + 50))) = Ok response)
              indices responses /\
      out = acc ++ List.concat
                     (map (fun response =>
                             get_or (Api.video_items response) [])
                          responses).
Proof.
  induction indices as [| i indices IH]; intros acc out Hout.
  - injection Hout as <-. exists []. split; [constructor|].
    cbn. rewrite app_nil_r. reflexivity.
  - cbn [for_each] in Hout. rewrite bind_snd, fetch_batch_snd in Hout.
    destruct (videos_list_execute youtube _) as [response | e] eqn:E;
      [|discriminate].
    destruct (IH _ _ Hout) as (responses & HF & ->).
    exists (response :: responses). split; [constructor; assumption|].
    cbn [map List.concat]. rewrite <- app_assoc. reflexivity.
Qed.

(** X13.  When the details loop completes, [detailed_videos] is the
    concatenation of the items of the answers, in the order of the
    batches: the order of the answers is kept. *)
Theorem details_in_batch_order
        (youtube : YouTube) (video_ids : list string)
        (detailed_videos : list Api.Video) :
  snd (fetch_details youtube video_ids) = Ok detailed_videos ->
  exists responses,
    Forall2 (fun batch response =>
               videos_list_execute youtube (str_join "," batch) = Ok response)
            (batches video_ids) responses /\
    detailed_videos
    = List.concat (map (fun response => get_or (Api.video_items response) [])
                       responses).
Proof.
  intros H. unfold fetch_details in H.
  destruct (fetch_loop_responses _ _ _ _ _ H) as (responses & HF & ->).
  exists responses. split; [|reflexivity].
  unfold batches. clear H.
  induction HF as [| i r indices rs Hi HF IH]; cbn [map]; constructor; assumption.
Qed.



(** X15.  When the search answer holds no result of kind
    ["youtube#video"] (or no items at all), the request is answered 200
    with an empty list after the search call alone. *)
Theorem empty_pool_empty_answer
        (env : Environment) (req : Request) (youtube : YouTube)
        (query : string) (max_results : Z)
        (search_response : Api.SearchListResponse) :
  validate req = Ok (query, max_results) ->
  get_youtube_service env = Ok youtube ->
  search_list_execute youtube query INITIAL_FETCH_COUNT = Ok search_response ->
  Forall (fun item => is_video_result item = false)
         (get_or (Api.search_items search_response) []) ->
  get_search env req = ([SearchList query 50], Response200 []).
Proof.
  intros Hv Hy Hs Hnone.
  assert (Hc : snd (collect_video_ids search_response) = Ok []).
  { unfold collect_video_ids. apply collect_loop_spec. exists [].
    split; [reflexivity|].
    induction Hnone as [| item items Hitem _ IH]; [reflexivity|].
    cbn [filter]. rewrite Hitem. exact IH. }
  rewrite (surjective_pairing (get_search env req)).
  rewrite get_search_snd, (get_search_fst _ _ _ _ Hv), Hv.
  rewrite (endpoint_snd _ _ _ _ Hy), (endpoint_fst _ _ _ _ Hy), Hs.
  cbn [rbind]. rewrite Hc. reflexivity.
Qed.

End EndpointExtras2.

(** ** Further properties of the score *)

Lemma str_append_assoc (a b c : string) :
  (a ++ (b ++ c) = (a ++ b) ++ c)%string.
Proof.
  induction a as [| x a IH]; cbn [String.append]; [reflexivity|].
  rewrite IH. reflexivity.
Qed.

Lemma str_replace_app (s t : string) (old : ascii) (new : string) :
  str_replace (s ++ t) old new
  = (str_replace s old new ++ str_replace t old new)%string.
Proof.
  induction s as [| c s IH]; cbn [String.append str_replace]; [reflexivity|].
  rewrite IH. destruct (Ascii.eqb c old); [|reflexivity].
  apply str_append_assoc.
Qed.

Section ScoreExtras.

Context {py : PythonRuntime}.

(** X10.  A [Z] is read as [+00:00] wherever it stands in
    [publishedAt]: the two spellings get the same score. *)
Theorem calculate_score_Z_is_utc
        (view_count like_count : option Z) (before after : string) :
  calculate_score view_count like_count (before ++ "Z" ++ after)
  = calculate_score view_count like_count (before ++ "+00:00" ++ after).
Proof.
  unfold calculate_score.
  rewrite !(str_replace_app before), !(str_replace_app _ after).
  reflexivity.
Qed.

Lemma ratio_component_without_likes (view_count like_count : option Z) :
  truthy_int like_count = false ->
  ratio_component view_count like_count = Ok float_0_0.
Proof.
  unfold ratio_component, truthy_int.
  destruct like_count as [l |]; [|destruct view_count; reflexivity].
  destruct (Z.eqb_spec l 0) as [-> | ]; [|discriminate]. intros _.
  destruct view_count as [v |]; [|reflexivity].
  destruct (Z.ltb_spec 0 v); [|reflexivity].
  destruct v as [| p | p]; try lia. reflexivity.
Qed.

(** X11.  Without likes (the like count absent or zero) the view count
    has no influence: the score is the one obtained with both counts
    absent. *)
Theorem calculate_score_without_likes
        (view_count like_count : option Z) (published_at_str : string) :
  truthy_int like_count = false ->
  calculate_score view_count like_count published_at_str
  = calculate_score None None published_at_str.
Proof.
  intros H.
  rewrite !calculate_score_ratio, (ratio_component_without_likes _ _ H).
  reflexivity.
Qed.

(** X16.  The only exception [calculate_score] lets out is the
    [OverflowError] of the division of the counts, which takes a
    positive view count and a like count of magnitude at least
    [2 ^ 1000]; it never raises [TypeError] or [ZeroDivisionError]. *)
Theorem calculate_score_raises_only_overflow `{!PythonRuntimeLaws py}
        (view_count like_count : option Z) (published_at_str : string)
        (e : exn) :
  calculate_score view_count like_count published_at_str = Raise e ->
  e = OverflowError /\
  exists v l,
    view_count = Some v /\ like_count = Some l /\
    0 < v /\ 2 ^ 1000 <= Z.abs l.
Proof.
  intros H. rewrite calculate_score_ratio in H.
  destruct (recency_bounded published_at_str) as (recency & Hrec & _).
  assert (Hok : forall r, ratio_component view_count like_count = Ok r -> False).
  { intros r Hr. rewrite Hr in H. cbn [rbind] in H. rewrite Hrec in H.
    discriminate. }
  destruct (ratio_component view_count like_count) as [r | e0] eqn:Hr;
    [destruct (Hok r eq_refl)|].
  cbn [rbind] in H. injection H as <-. clear Hok.
  unfold ratio_component in Hr.
  destruct view_count as [v |], like_count as [l |];
    repeat match type of Hr with
           | context [if ?b then _ else _] => destruct b eqn:?
           end; try discriminate.
  apply Z.ltb_lt in Heqb.
  destruct (Z_lt_le_dec (Z.abs l) (2 ^ 1000)) as [Hsmall | Hbig].
  - destruct (FloatFacts.long_true_divide_bounded l v 1000 Hsmall)
      as (q & Hq & _); [unfold Float.emax; lia | lia |].
    rewrite Hq in Hr. discriminate.
  - split; [|exists v, l; repeat split; assumption].
    unfold Float.long_true_divide in Hr.
    destruct (Z.eqb_spec v 0); [lia|].
    destruct (Float.div _ _); try discriminate.
    injection Hr as <-. reflexivity.
Qed.

End ScoreExtras.

Section ScoreLoopExtras.

Context {py : PythonRuntime}.


End ScoreLoopExtras.

(** ** The further properties on the example worlds *)

(** Witness of X1: B, ranked before A, does not score less. *)
Lemma rank_videos_descending_witness :
  Float.ltb (customScore Example.entry_B) (customScore Example.entry_A)
  = false.
Proof.
  apply (rank_videos_descending Example.videos_with_scores 10
           [] [Example.entry_E] Example.entry_B Example.entry_A []).
  reflexivity.
Defined.

(** Witness of X3: the first of two is the one ranked alone. *)
Lemma rank_videos_prefix_witness :
  exists more,
    rank_videos Example.videos_with_scores 2
    = rank_videos Example.videos_with_scores 1 ++ more.
Proof.
  apply (rank_videos_prefix Example.videos_with_scores 1 2). lia.
Defined.

(** Witness of X4. *)
Lemma rank_videos_idempotent_witness :
  rank_videos (rank_videos Example.videos_with_scores 2) 2
  = rank_videos Example.videos_with_scores 2.
Proof.
  apply (rank_videos_idempotent Example.videos_with_scores 2). lia.
Defined.

(** Witness of X5: no API key. *)
Lemma no_service_no_call_witness :
  @get_search CPython.runtime Faults.env_no_key Example.request
  = ([], ResponseError 500).
Proof.
  apply (@no_service_no_call CPython.runtime Faults.env_no_key
           Example.request "cats" 10).
  - reflexivity.
  - left. reflexivity.
Defined.


(** Witness of X7: a view count ["abc"] on an item without date. *)
Lemma malformed_count_fails_request_witness :
  exists status_code,
    snd (@get_search CPython.runtime Faults.env_bad_count Example.request)
    = ResponseError status_code.
Proof.
  apply (@malformed_count_fails_request CPython.runtime Faults.env_bad_count
           Example.request Faults.youtube_bad_count "cats" 10 ["A"]
           [Faults.video_bad_count] Faults.video_bad_count).
  - reflexivity.
  - reflexivity.
  - eexists. repeat split; try reflexivity. discriminate.
  - left. reflexivity.
  - exists "abc", ValueError. repeat split;
      [left; reflexivity | discriminate].
Defined.

(** Witness of X9: the calls of the example request. *)
Lemma calls_of_successful_request_witness :
  exists query video_ids detailed_videos videos_with_scores,
    param_query Example.request = Some query /\
    @ranked CPython.runtime Example.env Example.request video_ids
            detailed_videos videos_with_scores Example.results /\
    [SearchList "cats" 50; VideosList "A,B,C,D,E"]
    = SearchList query 50 :: map details_call (batches video_ids).
Proof.
  apply (@calls_of_successful_request CPython.runtime Example.env
           Example.request). reflexivity.
Defined.

(** Witness of X11: a thousand views and no like. *)
Lemma calculate_score_without_likes_witness :
  @calculate_score CPython.runtime (Some 1000) (Some 0) "2024-01-01T00:00:00Z"
  = @calculate_score CPython.runtime None None "2024-01-01T00:00:00Z".
Proof.
  apply (@calculate_score_without_likes CPython.runtime). reflexivity.
Defined.

(** Witness of X12: the five identifiers of the example. *)
Lemma single_details_call_witness :
  batches Example.video_ids = [Example.video_ids] /\
  fst (fetch_details Example.youtube Example.video_ids)
  = [details_call Example.video_ids].
Proof.
  apply (single_details_call Example.youtube Example.video_ids).
  cbn. lia.
Defined.

(** Witness of X13: the details of the example. *)
Lemma details_in_batch_order_witness :
  exists responses,
    Forall2 (fun batch response =>
               videos_list_execute Example.youtube (str_join "," batch)
               = Ok response)
            (batches Example.video_ids) responses /\
    Example.detailed_videos
    = List.concat (map (fun response => get_or (Api.video_items response) [])
                       responses).
Proof.
  apply (details_in_batch_order Example.youtube Example.video_ids).
  reflexivity.
Defined.


(** Witness of X15: nothing is found for ["dogs"]. *)
Lemma empty_pool_empty_answer_witness :
  @get_search CPython.runtime Example.env Faults.request_dogs
  = ([SearchList "dogs" 50], Response200 []).
Proof.
  apply (@empty_pool_empty_answer CPython.runtime Example.env
           Faults.request_dogs Example.youtube "dogs" 5
           {| Api.search_items := Some [] |}).
  - reflexivity.
  - reflexivity.
  - reflexivity.
  - constructor.
Defined.

(** Witness of X16: the overflowing division. *)
Lemma calculate_score_raises_only_overflow_witness :
  OverflowError = OverflowError /\
  exists v l,
    Some 1 = Some v /\ Some (2 ^ 1024) = Some l /\
    0 < v /\ 2 ^ 1000 <= Z.abs l.
Proof.
  apply (@calculate_score_raises_only_overflow CPython.runtime
           CPythonFacts.runtime_laws (Some 1) (Some (2 ^ 1024))
           "2024-01-01T00:00:00Z" OverflowError).
  vm_compute. reflexivity.
Defined.

